(** * Bulk loader of invoice archives (cargador_optimizado.py)

    A shallow embedding of [FacturasZipLoaderOptimizado] and [main]:
    the loader object, the archive and the document store are an explicit
    state, Python exceptions are an error monad over that state, and every
    call that leaves the process (opening the archive, [insert_many],
    [create_index], [find_one], closing handles) is recorded in a
    chronological trace.

    What is outside the model: wall-clock statistics ([start_time],
    [duration], [docs_per_second]), the progress bar and console colours,
    and the [_id] key the driver adds to inserted documents.  A Python
    [str] is represented by its UTF-8 encoding, on which [replace], [split]
    and [endswith] act byte by byte as they do on the code points;
    [lower] is computed for strings of ASCII characters, and taken from
    the outside world for the others. *)

From Stdlib Require Import List String Ascii ZArith Bool Lia Arith.
From Stdlib Require Import Sorting.Permutation.
From Stdlib Require Import Floats.SpecFloat.
Import ListNotations.
Local Open Scope string_scope.
Local Open Scope Z_scope.
Local Open Scope list_scope.

Set Warnings "-register-all".

(** ** Python values produced by [json.load] *)

(** A dict is kept as an association list in insertion order. *)
Definition dict (V : Type) := list (string * V).

Inductive json : Type :=
| JNull                              (* None *)
| JBool (b : bool)
| JInt (z : Z)
| JFloat (f : spec_float)
| JStr (s : string)
| JArr (l : list json)
| JObj (d : list (string * json)).

Module Dict.

Fixpoint get {V} (k : string) (d : dict V) : option V :=
  match d with
  | [] => None
  | (k', v) :: d' => if String.eqb k k' then Some v else get k d'
  end.

(** [d[k] = v]: an existing key keeps its position, a new key goes last. *)
Fixpoint set {V} (k : string) (v : V) (d : dict V) : dict V :=
  match d with
  | [] => [(k, v)]
  | (k', v') :: d' =>
      if String.eqb k k' then (k, v) :: d' else (k', v') :: set k v d'
  end.

Definition mem {V} (k : string) (d : dict V) : bool :=
  match get k d with Some _ => true | None => false end.

Definition keys {V} (d : dict V) : list string := map fst d.

End Dict.

(** Truth value of a Python object, as tested by [if json_data:]. *)
Definition truthy (v : json) : bool :=
  match v with
  | JNull => false
  | JBool b => b
  | JInt z => negb (z =? 0)
  | JFloat f => match f with S754_zero _ => false | _ => true end
  | JStr s => negb (String.eqb s "")
  | JArr l => match l with [] => false | _ => true end
  | JObj d => match d with [] => false | _ => true end
  end.

(** ** Exceptions *)

Inductive exn : Type :=
| JSONDecodeError
| KeyError
| FileNotFoundError
| UnicodeDecodeError
| BadZipFile
| TypeError
| RuntimeError
| ConnectionFailure
| ServerSelectionTimeoutError      (* a ConnectionFailure *)
| OperationFailure
| BulkWriteError                   (* an OperationFailure *)
| ConfigurationError
| InvalidName                      (* a PyMongoError *)
| KeyboardInterrupt                (* a BaseException, not an Exception *)
| SystemExit.                      (* a BaseException, not an Exception *)

Definition is_Exception (e : exn) : bool :=
  match e with
  | KeyboardInterrupt | SystemExit => false
  | _ => true
  end.

Definition is_ConnectionFailure (e : exn) : bool :=
  match e with
  | ConnectionFailure | ServerSelectionTimeoutError => true
  | _ => false
  end.

Definition is_BulkWriteError (e : exn) : bool :=
  match e with BulkWriteError => true | _ => false end.

Definition is_KeyboardInterrupt (e : exn) : bool :=
  match e with KeyboardInterrupt => true | _ => false end.

(** The handler of [load_json_fast]:
    [except (json.JSONDecodeError, KeyError, FileNotFoundError)]. *)
Definition caught_by_load_json (e : exn) : bool :=
  match e with
  | JSONDecodeError | KeyError | FileNotFoundError => true
  | _ => false
  end.

Inductive result (A : Type) : Type :=
| Ok (a : A)
| Raise (e : exn).
Arguments Ok {A} a.
Arguments Raise {A} e.

(** [json_data[k] = v]: only a dict supports assignment by a string key. *)
Definition setitem (obj : json) (k : string) (v : json) : result json :=
  match obj with
  | JObj d => Ok (JObj (Dict.set k v d))
  | _ => Raise TypeError
  end.

(** ** Strings *)

(** The lowercase of one ASCII character: only the letters A-Z change.
    It is used on strings of ASCII characters alone, see [lower]. *)
Definition lower_char (c : ascii) : ascii :=
  let n := nat_of_ascii c in
  if andb (Nat.leb 65 n) (Nat.leb n 90) then ascii_of_nat (n + 32) else c.

Definition replace_char (old new c : ascii) : ascii :=
  if Ascii.eqb c old then new else c.

Fixpoint map_string (f : ascii -> ascii) (s : string) : string :=
  match s with
  | EmptyString => EmptyString
  | String c s' => String (f c) (map_string f s')
  end.

(** [s.replace(old, new)] for one-character [old] and [new]. *)
Definition replace (old new : ascii) (s : string) : string :=
  map_string (replace_char old new) s.

Fixpoint string_forall (p : ascii -> bool) (s : string) : bool :=
  match s with
  | EmptyString => true
  | String c s' => andb (p c) (string_forall p s')
  end.

Definition is_ascii_char (c : ascii) : bool :=
  Nat.ltb (nat_of_ascii c) 128.

(** The string holds ASCII characters only. *)
Definition is_ascii (s : string) : bool := string_forall is_ascii_char s.

(** [s.lower()].  On a string of ASCII characters only the letters A-Z
    change.  For any other string the result depends on the Unicode case
    tables, which are not part of the program: it is [unicode_lower s]. *)
Definition lower (unicode_lower : string -> string) (s : string) : string :=
  if is_ascii s then map_string lower_char s else unicode_lower s.

Fixpoint contains_char (c : ascii) (s : string) : bool :=
  match s with
  | EmptyString => false
  | String d s' => orb (Ascii.eqb d c) (contains_char c s')
  end.

(** [sub in s] *)
Fixpoint contains (sub s : string) : bool :=
  orb (String.prefix sub s)
      match s with
      | EmptyString => false
      | String _ s' => contains sub s'
      end.

Definition first_char (s : string) : option ascii :=
  match s with
  | EmptyString => None
  | String c _ => Some c
  end.

Fixpoint last_char (s : string) : option ascii :=
  match s with
  | EmptyString => None
  | String c EmptyString => Some c
  | String _ s' => last_char s'
  end.

Definition is_dot (c : option ascii) : bool :=
  match c with
  | Some d => Ascii.eqb d "."%char
  | None => false
  end.

(** The names the driver accepts in [self.db[name]]: not empty, without
    [..], without [$] unless the name starts with [oplog.$main] or [$cmd],
    neither starting nor ending with a dot, and without the null
    character.  Any other name raises [InvalidName]. *)
Definition valid_collection_name (name : string) : bool :=
  andb (negb (String.eqb name ""))
    (andb (negb (contains ".." name))
       (andb (orb (negb (contains_char "$"%char name))
                (orb (String.prefix "oplog.$main" name)
                     (String.prefix "$cmd" name)))
          (andb (negb (orb (is_dot (first_char name))
                           (is_dot (last_char name))))
                (negb (contains_char zero name))))).

(** [s.endswith(suffix)] *)
Definition endswith (s suffix : string) : bool :=
  let n := String.length s in
  let m := String.length suffix in
  andb (Nat.leb m n) (String.eqb (substring (n - m) m s) suffix).

(** [s.split(sep)] for a one-character separator: never empty. *)
Fixpoint split (sep : ascii) (s : string) : list string :=
  match s with
  | EmptyString => [EmptyString]
  | String c s' =>
      if Ascii.eqb c sep then EmptyString :: split sep s'
      else match split sep s' with
           | [] => [String c EmptyString]
           | p :: ps => String c p :: ps
           end
  end.

(** ** The archive *)

(** What streaming one member through [json.load] gives: the parsed value,
    or the exception raised while reading or parsing its bytes
    ([JSONDecodeError] when the bytes are not syntactically valid). *)
Inductive member : Type :=
| Doc (v : json)
| Broken (e : exn).

(** Members in the order of [infolist()]. *)
Definition archive := list (string * member).

(** [ZipFile.open(name)] resolves the name through [NameToInfo], where a
    later member of the same name replaces an earlier one; a name that is
    not there raises [KeyError]. *)
Fixpoint getinfo (a : archive) (name : string) : option member :=
  match a with
  | [] => None
  | (n, m) :: a' =>
      match getinfo a' name with
      | Some m' => Some m'
      | None => if String.eqb name n then Some m else None
      end
  end.

Definition open_and_load (a : archive) (name : string) : result json :=
  match getinfo a name with
  | None => Raise KeyError
  | Some (Doc v) => Ok v
  | Some (Broken e) => Raise e
  end.

(** ** The document store and the outside world *)

Inductive index_key : Type :=
| Single (field : string)
| Compound (fields : list (string * Z)).

(** Conditions the program reports on the console. *)
Inductive message : Type :=
| MsgUriMissing
| MsgConnectionError
| MsgNoJsonFound
| MsgLoadFailed
| MsgInterrupted
| MsgUnexpected (e : exn)
| MsgNoDatabase
| MsgIndexesCreated (collection : string)
| MsgIndexError (collection : string) (e : exn)
| MsgCompleted (total_loaded : Z)
| MsgClosed.

Inductive event : Type :=
| EConnect
| EPing
| EOpenZip
| EListZip
| EInsertMany (collection : string) (batch : list json)
| ECreateIndex (collection : string) (key : index_key)
| EFindOne (collection : string)
| ECloseZip
| ECloseClient
| EReport (m : message).

Inductive connect_outcome : Type :=
| Connected
| ClientRaises (e : exn)           (* MongoClient(...) raises *)
| PingRaises (e : exn).            (* admin.command('ping') raises *)

(** Answer of the store to one [insert_many(..., ordered=False)]. *)
Inductive insert_response : Type :=
| Inserted
| PartialFailure (rejected : list nat)   (* BulkWriteError: these positions rejected *)
| InsertRaises (e : exn).                (* nothing persisted *)

(** A MongoDB document is a mapping. *)
Definition document := dict json.

Definition store := dict (list document).

(** Everything the run does not control.  The answers may depend on the
    moment of the call, given as the number of events logged before it. *)
Record World : Type := {
  w_zip : result archive;                       (* zipfile.ZipFile(zip_path, 'r') *)
  w_connect : connect_outcome;
  w_insert : nat -> string -> list json -> insert_response;
  w_create_index : nat -> string -> index_key -> option exn;
  w_find_one : nat -> string -> option exn;
  w_store0 : store;
  w_lower : string -> string;                   (* str.lower() beyond ASCII *)
  w_rank : nat -> nat -> nat                    (* where an unordered insert
                                                   puts each document *)
}.

(** [folder_name.replace(' ', '_').lower()] *)
Definition collection_name_of (W : World) (folder_name : string) : string :=
  lower (w_lower W) (replace " "%char "_"%char folder_name).

(** The loader object ([self]) together with the store and the trace. *)
Record state : Type := {
  client : bool;                    (* self.client is not None *)
  db : bool;                        (* self.db is not None *)
  zip_file : option archive;        (* self.zip_file *)
  docs : store;
  indexes : list (string * index_key);
  trace : list event
}.

Definition M (A : Type) : Type := state -> result A * state.

Definition ret {A} (a : A) : M A := fun s => (Ok a, s).

Definition raise {A} (e : exn) : M A := fun s => (Raise e, s).

Definition bind {A B} (m : M A) (k : A -> M B) : M B :=
  fun s =>
    match m s with
    | (Ok a, s') => k a s'
    | (Raise e, s') => (Raise e, s')
    end.

Notation "x <- m ;; k" := (bind m (fun x => k))
  (at level 61, m at next level, right associativity).
Notation "m ;;; k" := (bind m (fun _ => k))
  (at level 61, right associativity).

(** [try: body except C1: h1 except C2: h2 ...]: the first clause whose
    class matches handles the exception; none matching, it propagates. *)
Fixpoint dispatch {A} (clauses : list ((exn -> bool) * (exn -> M A)))
    (e : exn) : M A :=
  match clauses with
  | [] => raise e
  | (handles, handler) :: rest =>
      if handles e then handler e else dispatch rest e
  end.

Definition try_excepts {A} (body : M A)
    (clauses : list ((exn -> bool) * (exn -> M A))) : M A :=
  fun s =>
    match body s with
    | (Ok a, s') => (Ok a, s')
    | (Raise e, s') => dispatch clauses e s'
    end.

Definition try_except {A} (body : M A) (handles : exn -> bool)
    (handler : exn -> M A) : M A :=
  try_excepts body [(handles, handler)].

(** [try: body finally: cleanup] *)
Definition try_finally {A} (body : M A) (cleanup : M unit) : M A :=
  fun s =>
    match body s with
    | (r, s') =>
        match cleanup s' with
        | (Ok _, s'') => (r, s'')
        | (Raise e, s'') => (Raise e, s'')
        end
    end.

Definition log (e : event) : M unit :=
  fun s => (Ok tt, {| client := client s; db := db s; zip_file := zip_file s;
                      docs := docs s; indexes := indexes s;
                      trace := trace s ++ [e] |}).

Definition now : M nat := fun s => (Ok (List.length (trace s)), s).

Definition get_db : M bool := fun s => (Ok (db s), s).
Definition get_client : M bool := fun s => (Ok (client s), s).
Definition get_zip_file : M (option archive) := fun s => (Ok (zip_file s), s).

Definition set_client : M unit :=
  fun s => (Ok tt, {| client := true; db := db s; zip_file := zip_file s;
                      docs := docs s; indexes := indexes s; trace := trace s |}).

Definition set_db : M unit :=
  fun s => (Ok tt, {| client := client s; db := true; zip_file := zip_file s;
                      docs := docs s; indexes := indexes s; trace := trace s |}).

Definition set_zip_file (a : archive) : M unit :=
  fun s => (Ok tt, {| client := client s; db := db s; zip_file := Some a;
                      docs := docs s; indexes := indexes s; trace := trace s |}).

Fixpoint insert_by_rank (x : nat * document) (l : list (nat * document))
    : list (nat * document) :=
  match l with
  | [] => [x]
  | y :: l' =>
      if Nat.leb (fst x) (fst y) then x :: l else y :: insert_by_rank x l'
  end.

(** The documents of one unordered insert in the order the store lays them
    down: by increasing [rank] of their position in the batch. *)
Definition arrange (rank : nat -> nat) (ds : list document)
    : list document :=
  map snd
    (fold_right insert_by_rank []
       (combine (map rank (seq 0 (List.length ds))) ds)).

(** The store takes the documents of an unordered insert, in an order of
    its own, after those the collection holds. *)
Definition persist (rank : nat -> nat) (collection : string)
    (ds : list document) : M unit :=
  fun s =>
    let old := match Dict.get collection (docs s) with
               | Some l => l
               | None => []
               end in
    (Ok tt, {| client := client s; db := db s; zip_file := zip_file s;
               docs := Dict.set collection (old ++ arrange rank ds) (docs s);
               indexes := indexes s; trace := trace s |}).

(** [self.db[name]] *)
Definition get_collection (name : string) : M string :=
  fun s => if valid_collection_name name
           then (Ok name, s) else (Raise InvalidName, s).

Definition add_index (collection : string) (k : index_key) : M unit :=
  fun s => (Ok tt, {| client := client s; db := db s; zip_file := zip_file s;
                      docs := docs s;
                      indexes := indexes s ++ [(collection, k)];
                      trace := trace s |}).

Definition first_document (collection : string) : M (option document) :=
  fun s =>
    (Ok match Dict.get collection (docs s) with
        | Some (d :: _) => Some d
        | _ => None
        end, s).

(** The driver accepts a non-empty list of mappings only. *)
Fixpoint as_documents (batch : list json) : option (list document) :=
  match batch with
  | [] => Some []
  | JObj d :: rest =>
      match as_documents rest with
      | Some ds => Some (d :: ds)
      | None => None
      end
  | _ :: _ => None
  end.

Fixpoint drop_rejected {A} (i : nat) (rejected : list nat) (l : list A) : list A :=
  match l with
  | [] => []
  | x :: l' =>
      if existsb (Nat.eqb i) rejected then drop_rejected (S i) rejected l'
      else x :: drop_rejected (S i) rejected l'
  end.

Definition lift {A} (r : result A) : M A :=
  match r with
  | Ok a => ret a
  | Raise e => raise e
  end.

(** [d[k].append(x)] on a [defaultdict(list)]. *)
Definition append_to (k : string) (x : string) (d : dict (list string))
    : dict (list string) :=
  match Dict.get k d with
  | Some l => Dict.set k (l ++ [x]) d
  | None => Dict.set k [x] d
  end.

(** The per-partition counters of [process_folder]. *)
Record Stats : Type := {
  total_files : Z;
  loaded_files : Z;
  failed_files : Z;
  batch_count : Z
}.

Definition incr_loaded (st : Stats) : Stats :=
  {| total_files := total_files st; loaded_files := loaded_files st + 1;
     failed_files := failed_files st; batch_count := batch_count st |}.

Definition incr_failed (st : Stats) : Stats :=
  {| total_files := total_files st; loaded_files := loaded_files st;
     failed_files := failed_files st + 1; batch_count := batch_count st |}.

Definition incr_batch (st : Stats) : Stats :=
  {| total_files := total_files st; loaded_files := loaded_files st;
     failed_files := failed_files st; batch_count := batch_count st + 1 |}.

(** ** The loader *)

Section Loader.

Variable W : World.

(** [__init__], with the store as [main] finds it. *)
Definition init_state : state :=
  {| client := false; db := false; zip_file := None;
     docs := w_store0 W; indexes := []; trace := [] |}.

Definition connect_to_mongodb : M bool :=
  try_except
    (log EConnect ;;;
     match w_connect W with
     | ClientRaises e => raise e
     | PingRaises e => set_client ;;; log EPing ;;; raise e
     | Connected => set_client ;;; log EPing ;;; set_db ;;; ret true
     end)
    is_ConnectionFailure
    (fun _ => log (EReport MsgConnectionError) ;;; ret false).

Definition open_zip_file : M unit :=
  log EOpenZip ;;;
  match w_zip W with
  | Ok a => set_zip_file a
  | Raise e => raise e
  end.

(** One iteration of the loop over [infolist()];
    [is_dir()] is [filename.endswith('/')]. *)
Definition classify (folder_structure : dict (list string))
    (filename : string) : dict (list string) :=
  if andb (endswith filename ".json") (negb (endswith filename "/")) then
    let parts := split "/"%char filename in
    if (1 <? List.length parts)%nat
    then append_to (hd "" parts) filename folder_structure
    else append_to "root" filename folder_structure
  else folder_structure.

Definition analyze_zip_structure : M (dict (list string)) :=
  log EListZip ;;;
  match w_zip W with
  | Ok a => ret (fold_left classify (map fst a) [])
  | Raise e => raise e
  end.

Definition load_json_fast (file_path : string) : M json :=
  try_except
    (z <- get_zip_file ;;
     match z with
     | None => ret JNull
     | Some a => lift (open_and_load a file_path)
     end)
    caught_by_load_json
    (fun _ => ret JNull).

(** [collection.insert_many(batch_data, ordered=False,
    bypass_document_validation=True)] *)
Definition insert_many (collection : string) (batch_data : list json)
    : M unit :=
  t <- now ;;
  log (EInsertMany collection batch_data) ;;;
  match batch_data with
  | [] => raise TypeError
  | _ :: _ =>
      match as_documents batch_data with
      | None => raise TypeError
      | Some ds =>
          match w_insert W t collection batch_data with
          | Inserted => persist (w_rank W t) collection ds
          | PartialFailure rejected =>
              persist (w_rank W t) collection
                (drop_rejected 0 rejected ds) ;;;
              raise BulkWriteError
          | InsertRaises e => raise e
          end
      end
  end.

Definition execute_batch (collection : string) (batch_data : list json)
    : M unit :=
  try_excepts (insert_many collection batch_data)
    [(is_BulkWriteError, fun _ => ret tt);
     (is_Exception, fun _ => ret tt)].

(** The [for file_path in file_list] loop of [process_folder], with its
    two loop-carried locals. *)
Fixpoint process_files (folder_name collection : string) (batch_size : Z)
    (file_list : list string) (batch_data : list json) (stats : Stats)
    : M (list json * Stats) :=
  match file_list with
  | [] => ret (batch_data, stats)
  | file_path :: rest =>
      json_data <- load_json_fast file_path ;;
      if truthy json_data then
        with_file <- lift (setitem json_data "_source_file" (JStr file_path)) ;;
        with_folder <- lift (setitem with_file "_source_folder" (JStr folder_name)) ;;
        let batch_data := batch_data ++ [with_folder] in
        let stats := incr_loaded stats in
        if Z.of_nat (List.length batch_data) >=? batch_size then
          execute_batch collection batch_data ;;;
          process_files folder_name collection batch_size rest []
            (incr_batch stats)
        else
          process_files folder_name collection batch_size rest batch_data
            stats
      else
        process_files folder_name collection batch_size rest batch_data
          (incr_failed stats)
  end.

Definition process_folder (folder_name : string) (file_list : list string)
    (batch_size : Z) : M Stats :=
  connected <- get_db ;;
  if negb connected then raise RuntimeError else
  let collection_name := collection_name_of W folder_name in
  collection <- get_collection collection_name ;;
  let stats := {| total_files := Z.of_nat (List.length file_list);
                  loaded_files := 0; failed_files := 0;
                  batch_count := 0 |} in
  r <- process_files folder_name collection batch_size file_list []
         stats ;;
  let (batch_data, stats) := r in
  match batch_data with
  | [] => ret stats
  | _ :: _ =>
      execute_batch collection batch_data ;;;
      ret (incr_batch stats)
  end.

Definition create_index (collection : string) (key : index_key) : M unit :=
  t <- now ;;
  log (ECreateIndex collection key) ;;;
  match w_create_index W t collection key with
  | None => add_index collection key
  | Some e => raise e
  end.

Definition find_one (collection : string) : M (option document) :=
  t <- now ;;
  log (EFindOne collection) ;;;
  match w_find_one W t collection with
  | None => first_document collection
  | Some e => raise e
  end.

(** [sample and field in sample] *)
Definition sample_has (sample : option document) (field : string) : bool :=
  match sample with
  | None => false
  | Some [] => false
  | Some d => Dict.mem field d
  end.

(** The body of the loop of [create_indexes], with its own [try].  The
    lookup [self.db[collection_name]] that opens it can fail only for a
    name [process_folder] refuses, and [run_complete_process] passes the
    names [process_folder] has accepted. *)
Definition index_collection (collection_name : string) : M unit :=
  try_except
    (create_index collection_name (Single "_source_file") ;;;
     create_index collection_name (Single "_source_folder") ;;;
     create_index collection_name
       (Compound [("_source_folder", 1); ("_source_file", 1)]) ;;;
     sample <- find_one collection_name ;;
     (if sample_has sample "factura_num"
      then create_index collection_name (Single "factura_num")
      else ret tt) ;;;
     (if sample_has sample "fecha_hora"
      then create_index collection_name (Single "fecha_hora")
      else ret tt) ;;;
     log (EReport (MsgIndexesCreated collection_name)))
    is_Exception
    (fun e => log (EReport (MsgIndexError collection_name e))).

Fixpoint index_collections (collections : list string) : M unit :=
  match collections with
  | [] => ret tt
  | collection_name :: rest =>
      index_collection collection_name ;;;
      index_collections rest
  end.

Definition create_indexes (collections : list string) : M unit :=
  connected <- get_db ;;
  if negb connected then log (EReport MsgNoDatabase)
  else index_collections collections.

(** The loop over [folder_structure.items()]; [process_folder] runs with
    its default batch size. *)
Fixpoint process_folders (folder_structure : dict (list string))
    (total_loaded : Z) (collection_names : list string)
    : M (Z * list string) :=
  match folder_structure with
  | [] => ret (total_loaded, collection_names)
  | (folder_name, file_list) :: rest =>
      stats <- process_folder folder_name file_list 8000 ;;
      process_folders rest (total_loaded + loaded_files stats)
        (collection_names ++ [collection_name_of W folder_name])
  end.

Definition run_complete_process : M bool :=
  connected <- connect_to_mongodb ;;
  if negb connected then ret false else
  open_zip_file ;;;
  folder_structure <- analyze_zip_structure ;;
  match folder_structure with
  | [] => log (EReport MsgNoJsonFound) ;;; ret false
  | _ :: _ =>
      r <- process_folders folder_structure 0 [] ;;
      let (total_loaded, collection_names) := r in
      create_indexes collection_names ;;;
      log (EReport (MsgCompleted total_loaded)) ;;;
      ret true
  end.

Definition close_connection : M unit :=
  z <- get_zip_file ;;
  (match z with Some _ => log ECloseZip | None => ret tt end) ;;;
  c <- get_client ;;
  (if c then log ECloseClient else ret tt).

(** [not mongo_uri] for the value of [os.getenv('MONGO_URI')]. *)
Definition uri_missing (mongo_uri : option string) : bool :=
  match mongo_uri with
  | None => true
  | Some u => String.eqb u ""
  end.

Definition main (mongo_uri : option string) : M unit :=
  if uri_missing mongo_uri then log (EReport MsgUriMissing) else
  try_finally
    (try_excepts
       (success <- run_complete_process ;;
        if negb success then log (EReport MsgLoadFailed) else ret tt)
       [(is_KeyboardInterrupt, fun _ => log (EReport MsgInterrupted));
        (is_Exception, fun e => log (EReport (MsgUnexpected e)))])
    (close_connection ;;; log (EReport MsgClosed)).

End Loader.

(** ** Vocabulary of the statements *)

(** The value [load_json_fast] returns for an entry, as a function of the
    archive handle: [None] for the three handled exceptions. *)
Definition decode (z : option archive) (file_path : string) : result json :=
  match z with
  | None => Ok JNull
  | Some a =>
      match open_and_load a file_path with
      | Ok v => Ok v
      | Raise e => if caught_by_load_json e then Ok JNull else Raise e
      end
  end.

(** The two provenance writes of [process_folder]. *)
Definition stamp (folder_name file_path : string) (v : json) : result json :=
  match setitem v "_source_file" (JStr file_path) with
  | Ok j => setitem j "_source_folder" (JStr folder_name)
  | Raise e => Raise e
  end.

(** The records a partition contributes, in entry order. *)
Fixpoint records (z : option archive) (folder_name : string)
    (file_list : list string) : list json :=
  match file_list with
  | [] => []
  | file_path :: rest =>
      match decode z file_path with
      | Ok v =>
          if truthy v then
            match stamp folder_name file_path v with
            | Ok j => j :: records z folder_name rest
            | Raise _ => records z folder_name rest
            end
          else records z folder_name rest
      | Raise _ => records z folder_name rest
      end
  end.

(** The batches of the [insert_many] calls of a trace, oldest first. *)
Fixpoint batches_of (t : list event) : list (list json) :=
  match t with
  | [] => []
  | EInsertMany _ b :: t' => b :: batches_of t'
  | _ :: t' => batches_of t'
  end.

(** The batches dispatched between two states of one run. *)
Definition dispatched (s s' : state) : list (list json) :=
  batches_of (skipn (List.length (trace s)) (trace s')).

Definition sizes (bs : list (list json)) : list Z :=
  map (fun b => Z.of_nat (List.length b)) bs.

Definition total (l : list Z) : Z := fold_right Z.add 0 l.

(** Every batch but the last one holds exactly [n] records. *)
Fixpoint full_but_last (n : Z) (bs : list (list json)) : Prop :=
  match bs with
  | [] => True
  | b :: rest =>
      match rest with
      | [] => True
      | _ :: _ => Z.of_nat (List.length b) = n /\ full_but_last n rest
      end
  end.

(** [j] is the document decoded from entry [file_path] of the partition
    with both provenance keys set. *)
Definition record_of (z : option archive) (folder_name : string)
    (file_list : list string) (j : json) : Prop :=
  exists file_path v d,
    In file_path file_list /\
    decode z file_path = Ok v /\
    stamp folder_name file_path v = Ok j /\
    j = JObj d /\
    Dict.get "_source_file" d = Some (JStr file_path) /\
    Dict.get "_source_folder" d = Some (JStr folder_name).

(** An entry the scenario calls well-formed: it is in the archive and its
    bytes parse to a JSON object with at least one key. *)
Definition well_formed_entry (a : archive) (file_path : string) : Prop :=
  exists k v d, getinfo a file_path = Some (Doc (JObj ((k, v) :: d))).

Definition is_upper (c : ascii) : bool :=
  let n := nat_of_ascii c in andb (Nat.leb 65 n) (Nat.leb n 90).

Definition space_or_underscore (c : ascii) : bool :=
  orb (Ascii.eqb c " "%char) (Ascii.eqb c "_"%char).

(** Two characters that are equal, or the two cases of one of the letters
    A-Z, or a space and an underscore. *)
Definition alike_char (c d : ascii) : bool :=
  orb (Ascii.eqb c d)
    (orb (andb (is_upper c) (Nat.eqb (nat_of_ascii c + 32) (nat_of_ascii d)))
       (orb (andb (is_upper d)
               (Nat.eqb (nat_of_ascii d + 32) (nat_of_ascii c)))
          (andb (space_or_underscore c) (space_or_underscore d)))).

(** Two names of the same length that are alike character by character. *)
Fixpoint alike (a b : string) : bool :=
  match a, b with
  | EmptyString, EmptyString => true
  | String c a', String d b' => andb (alike_char c d) (alike a' b')
  | _, _ => false
  end.

(** The canonicalization of one ASCII character. *)
Definition canonical_of_char (c : ascii) : ascii :=
  lower_char (replace_char " " "_" c).

Definition all_chars : list ascii := map ascii_of_nat (seq 0 256).

Definition is_insert (e : event) : bool :=
  match e with EInsertMany _ _ => true | _ => false end.

(** A store whose failures are all ordinary exceptions. *)
Definition store_fails_softly (W : World) : Prop :=
  forall t c b e, w_insert W t c b = InsertRaises e -> is_Exception e = true.

Definition indexing_fails_softly (W : World) : Prop :=
  (forall t c k e, w_create_index W t c k = Some e -> is_Exception e = true) /\
  (forall t c e, w_find_one W t c = Some e -> is_Exception e = true).

Definition indexing_succeeds (W : World) (c : string) : Prop :=
  (forall t k, w_create_index W t c k = None) /\
  (forall t, w_find_one W t c = None).

(** The same world with a store that accepts every batch. *)
Definition with_reliable_store (W : World) : World :=
  {| w_zip := w_zip W;
     w_connect := w_connect W;
     w_insert := fun _ _ _ => Inserted;
     w_create_index := w_create_index W;
     w_find_one := w_find_one W;
     w_store0 := w_store0 W;
     w_lower := w_lower W;
     w_rank := w_rank W |}.

(** The partition names of a listing. *)
Definition fmap_keys (r : result (dict (list string))) : option (list string) :=
  match r with
  | Ok d => Some (Dict.keys d)
  | Raise _ => None
  end.

(** The document [find_one] returns on a store. *)
Definition probe (st : store) (collection : string) : option document :=
  match Dict.get collection st with
  | Some (d :: _) => Some d
  | _ => None
  end.

Definition field_present (sample : option document) (field : string) : bool :=
  match sample with
  | Some d => existsb (String.eqb field) (Dict.keys d)
  | None => false
  end.

(** The calls the Index Builder makes for one collection when none fails. *)
Definition index_events (c : string) (sample : option document) : list event :=
  [ECreateIndex c (Single "_source_file");
   ECreateIndex c (Single "_source_folder");
   ECreateIndex c (Compound [("_source_folder", 1); ("_source_file", 1)]);
   EFindOne c]
  ++ (if field_present sample "factura_num"
      then [ECreateIndex c (Single "factura_num")] else [])
  ++ (if field_present sample "fecha_hora"
      then [ECreateIndex c (Single "fecha_hora")] else []).

(** Entries that cannot make the loop raise: each decodes, and a truthy
    decoded value is a JSON object. *)
Definition loadable (z : option archive) (files : list string) : Prop :=
  forall p, In p files ->
    exists v, decode z p = Ok v /\ (truthy v = true -> exists d, v = JObj d).

(** A report that ends the run before any load. *)
Definition fatal_report (e : event) : bool :=
  match e with
  | EReport MsgUriMissing => true
  | EReport MsgConnectionError => true
  | EReport MsgInterrupted => true
  | EReport (MsgUnexpected _) => true
  | _ => false
  end.

Definition is_completed (e : event) : bool :=
  match e with EReport (MsgCompleted _) => true | _ => false end.

Definition is_open_zip (e : event) : bool :=
  match e with EOpenZip | EListZip => true | _ => false end.

(** A computation of the index builder: it leaves documents and the
    connection alone, only adds to the trace, and raises ordinary
    exceptions only. *)
Definition tame {A} (m : M A) : Prop :=
  forall s r s', m s = (r, s') ->
    docs s' = docs s /\ db s' = db s /\
    (exists t, trace s' = trace s ++ t) /\
    match r with Raise e => is_Exception e = true | Ok _ => True end.

(** The store calls made since a state. *)
Definition since (s s' : state) : list event :=
  skipn (List.length (trace s)) (trace s').

Definition inserts_into (c : string) (e : event) : Prop :=
  match e with
  | EInsertMany c' _ => c' = c
  | _ => False
  end.

(** ** Vocabulary of the further properties *)

(** The test [analyze_zip_structure] applies to a member name. *)
Definition is_json_entry (filename : string) : bool :=
  andb (endswith filename ".json") (negb (endswith filename "/")).

(** The partition a member name is filed under: its first path segment,
    or [root] when it has no separator. *)
Definition partition_of (filename : string) : string :=
  let parts := split "/"%char filename in
  if (1 <? List.length parts)%nat then hd "" parts else "root".

(** The data entries of a partition, in archive order. *)
Definition entries_of (names : list string) (k : string) : list string :=
  filter (fun p => andb (is_json_entry p) (String.eqb (partition_of p) k))
    names.

Definition no_slash (s : string) : bool :=
  string_forall (fun c => negb (Ascii.eqb c "/"%char)) s.

(** Neither a letter A-Z nor a space. *)
Definition canonical_char (c : ascii) : bool :=
  andb (negb (is_upper c)) (negb (Ascii.eqb c " "%char)).

(** The documents stored in a collection, none when it does not exist. *)
Definition stored (st : store) (collection : string) : list document :=
  match Dict.get collection st with
  | Some l => l
  | None => []
  end.

(** The mappings among a list of values. *)
Fixpoint documents_of (l : list json) : list document :=
  match l with
  | [] => []
  | JObj d :: rest => d :: documents_of rest
  | _ :: rest => documents_of rest
  end.

(** A store that accepts every batch in full. *)
Definition store_accepts_all (W : World) : Prop :=
  forall t c b, w_insert W t c b = Inserted.

Definition is_index_call (e : event) : bool :=
  match e with
  | ECreateIndex _ _ | EFindOne _ => true
  | _ => false
  end.

(** No [insert_many] comes after a call of the index builder. *)
Fixpoint inserts_precede_indexing (t : list event) : bool :=
  match t with
  | [] => true
  | e :: t' =>
      if is_index_call e then negb (existsb is_insert t')
      else inserts_precede_indexing t'
  end.

(** The calls that release what the loader holds in a state. *)
Definition release_events (s : state) : list event :=
  (match zip_file s with Some _ => [ECloseZip] | None => [] end)
  ++ (if client s then [ECloseClient] else [])
  ++ [EReport MsgClosed].

(** A computation whose every run relates the states before and after. *)
Definition keeps (R : state -> state -> Prop) {A} (m : M A) : Prop :=
  forall s r s', m s = (r, s') -> R s s'.

(** The trace grows by events that all satisfy [p]. *)
Definition grows_by (p : event -> bool) (s s' : state) : Prop :=
  exists t, trace s' = trace s ++ t /\ forallb p t = true.

Definition same_docs (s s' : state) : Prop := docs s' = docs s.

(** A member the loop can take without raising: a document that is falsy
    or a JSON object, or bytes whose exception [load_json_fast] handles. *)
Definition harmless_member (m : member) : bool :=
  match m with
  | Doc (JObj _) => true
  | Doc v => negb (truthy v)
  | Broken e => caught_by_load_json e
  end.

(** The records of all the partitions of a listing. *)
Fixpoint all_records (z : option archive)
    (folder_structure : dict (list string)) : list json :=
  match folder_structure with
  | [] => []
  | (folder_name, file_list) :: rest =>
      records z folder_name file_list ++ all_records z rest
  end.

Definition not_index_call (e : event) : bool := negb (is_index_call e).

Definition not_insert (e : event) : bool := negb (is_insert e).

(** The trace grows by a stretch without index calls followed by a
    stretch without inserts. *)
Definition loads_then_indexes (s s' : state) : Prop :=
  exists t1 t2,
    trace s' = trace s ++ t1 ++ t2 /\
    forallb not_index_call t1 = true /\
    forallb not_insert t2 = true.

(** What [main] runs inside its [try]. *)
Definition main_body (W : World) : M unit :=
  bind (run_complete_process W)
    (fun success =>
       if negb success then log (EReport MsgLoadFailed) else ret tt).

(** The listing [analyze_zip_structure] computes for an archive. *)
Definition listing (a : archive) : dict (list string) :=
  fold_left classify (map fst a) [].

(** What [main] reports for the outcome of its [try] body. *)
Definition main_reports (r : result unit) : list event :=
  match r with
  | Ok _ => []
  | Raise e =>
      if is_KeyboardInterrupt e then [EReport MsgInterrupted]
      else if is_Exception e then [EReport (MsgUnexpected e)]
      else []
  end.

(** What [main] returns for the outcome of its [try] body. *)
Definition main_result (r : result unit) : result unit :=
  match r with
  | Ok _ => Ok tt
  | Raise e =>
      if is_KeyboardInterrupt e then Ok tt
      else if is_Exception e then Ok tt
      else Raise e
  end.

(** ** Sample archives and worlds *)

Module Samples.

Definition invoice (num : Z) : json :=
  JObj [("factura_num", JInt num); ("total", JInt 1500)].

(** A document that already uses the provenance keys. *)
Definition forged : json :=
  JObj [("_source_file", JStr "elsewhere.json");
        ("_source_folder", JInt 0); ("factura_num", JInt 9)].

Definition small_archive : archive :=
  [("Ventas 2024/a.json", Doc (invoice 1));
   ("Ventas 2024/b.json", Broken JSONDecodeError);
   ("Ventas 2024/c.json", Doc forged);
   ("Ventas 2024/d.json", Doc (invoice 4));
   ("ventas_2024/e.json", Doc (invoice 5));
   ("suelto.json", Doc (invoice 6))].

Definition small_files : list string :=
  ["Ventas 2024/a.json"; "Ventas 2024/b.json"; "Ventas 2024/c.json";
   "Ventas 2024/d.json"; "Ventas 2024/missing.json"].

(** One entry holding the empty JSON object, one holding a JSON array. *)
Definition edge_archive : archive :=
  [("f/empty.json", Doc (JObj []));
   ("f/array.json", Doc (JArr [JInt 1]))].

(** A store that accepts everything. *)
Definition world (a : archive) : World :=
  {| w_zip := Ok a;
     w_connect := Connected;
     w_insert := fun _ _ _ => Inserted;
     w_create_index := fun _ _ _ => None;
     w_find_one := fun _ _ => None;
     w_store0 := [];
     w_lower := fun s => s;
     w_rank := fun _ i => i |}.

(** A store that rejects two documents of every batch, except that the
    call made at time 4 fails as a whole; index creation fails for
    collection [bad]. *)
Definition flaky_world (a : archive) : World :=
  {| w_zip := Ok a;
     w_connect := Connected;
     w_insert := fun t _ _ =>
       if Nat.eqb t 4 then InsertRaises ServerSelectionTimeoutError
       else PartialFailure [0%nat; 1%nat];
     w_create_index := fun _ c _ =>
       if String.eqb c "bad" then Some OperationFailure else None;
     w_find_one := fun _ _ => None;
     w_store0 := [("good", [[("factura_num", JInt 1)]])];
     w_lower := fun s => s;
     w_rank := fun _ i => i |}.

(** A world whose store cannot be reached. *)
Definition offline_world (a : archive) : World :=
  {| w_zip := Ok a;
     w_connect := PingRaises ServerSelectionTimeoutError;
     w_insert := fun _ _ _ => Inserted;
     w_create_index := fun _ _ _ => None;
     w_find_one := fun _ _ => None;
     w_store0 := [];
     w_lower := fun s => s;
     w_rank := fun _ i => i |}.

Definition entry_names (folder : string) (ids : list string) : list string :=
  map (fun i => (folder ++ "/" ++ i ++ ".json")%string) ids.

Definition ten_files : list string :=
  entry_names "enero" ["0"; "1"; "2"; "3"; "4"; "5"; "6"; "7"; "8"; "9"].

Definition five_files : list string :=
  entry_names "febrero" ["0"; "1"; "2"; "3"; "4"].

Definition scenario_archive : archive :=
  map (fun p => (p, Doc (invoice 1))) (ten_files ++ five_files).

(** The loader after a successful connection and [open_zip_file]. *)
Definition ready (W : World) (a : archive) : state :=
  {| client := true; db := true; zip_file := Some a;
     docs := w_store0 W; indexes := []; trace := [EConnect; EPing; EOpenZip] |}.

End Samples.

(** ** Further sample archives *)

Module Cases.

(** Three invoices followed by a JSON array. *)
Definition abort_archive : archive :=
  [("f/1.json", Doc (Samples.invoice 1));
   ("f/2.json", Doc (Samples.invoice 2));
   ("f/3.json", Doc (Samples.invoice 3));
   ("f/4.json", Doc (JArr [JInt 4]));
   ("f/5.json", Doc (Samples.invoice 5))].

Definition abort_files : list string :=
  ["f/1.json"; "f/2.json"; "f/3.json"; "f/4.json"; "f/5.json"].

(** An archive with no data entry. *)
Definition text_archive : archive :=
  [("leeme.txt", Doc JNull); ("datos/", Doc JNull);
   ("datos/notas.csv", Broken UnicodeDecodeError)].

(** A reachable store and an archive that cannot be opened. *)
Definition unreadable_world : World :=
  {| w_zip := Raise BadZipFile;
     w_connect := Connected;
     w_insert := fun _ _ _ => Inserted;
     w_create_index := fun _ _ _ => None;
     w_find_one := fun _ _ => None;
     w_store0 := [("ventas", [[("factura_num", JInt 1)]])];
     w_lower := fun s => s;
     w_rank := fun _ i => i |}.

(** A store that already holds a collection. *)
Definition stocked_world (a : archive) : World :=
  {| w_zip := Ok a;
     w_connect := Connected;
     w_insert := fun _ _ _ => Inserted;
     w_create_index := fun _ _ _ => None;
     w_find_one := fun _ _ => None;
     w_store0 := [("ventas_2024", [[("factura_num", JInt 0)]])];
     w_lower := fun s => s;
     w_rank := fun _ i => i |}.

(** The same store, laying the documents of each batch down in reverse. *)
Definition reversing_world (a : archive) : World :=
  {| w_zip := Ok a;
     w_connect := Connected;
     w_insert := fun _ _ _ => Inserted;
     w_create_index := fun _ _ _ => None;
     w_find_one := fun _ _ => None;
     w_store0 := [("ventas_2024", [[("factura_num", JInt 0)]])];
     w_lower := fun s => s;
     w_rank := fun _ i => (100 - i)%nat |}.

End Cases.

(** ** Basic facts *)

Ltac unfold_monad :=
  unfold try_except, try_excepts, bind, ret, raise, lift, now, log,
    get_db, get_client, get_zip_file, set_client, set_db, set_zip_file,
    persist, add_index, first_document in *.

Ltac done_pair :=
  let H := fresh in
  intros H; injection H as <- <-; cbn; auto.

Lemma dict_get_set_same {V} (k : string) (v : V) (d : dict V) :
  Dict.get k (Dict.set k v d) = Some v.
Proof.
  induction d as [|[k' v'] d IH]; cbn.
  - now rewrite String.eqb_refl.
  - destruct (String.eqb k k') eqn:E; cbn.
    + now rewrite String.eqb_refl.
    + now rewrite E.
Qed.

Lemma dict_get_set_other {V} (k k' : string) (v : V) (d : dict V) :
  k <> k' -> Dict.get k' (Dict.set k v d) = Dict.get k' d.
Proof.
  intros Hne.
  induction d as [|[k0 v0] d IH]; cbn.
  - destruct (String.eqb k' k) eqn:E; [|reflexivity].
    apply String.eqb_eq in E. congruence.
  - destruct (String.eqb k k0) eqn:E; cbn.
    + apply String.eqb_eq in E. subst k0.
      destruct (String.eqb k' k) eqn:E'; [|reflexivity].
      apply String.eqb_eq in E'. congruence.
    + now rewrite IH.
Qed.

Lemma stamp_inv (folder_name file_path : string) (v j : json) :
  stamp folder_name file_path v = Ok j ->
  exists d0 d, v = JObj d0 /\ j = JObj d /\
    Dict.get "_source_file" d = Some (JStr file_path) /\
    Dict.get "_source_folder" d = Some (JStr folder_name) /\
    forall k, k <> "_source_file" -> k <> "_source_folder" ->
      Dict.get k d = Dict.get k d0.
Proof.
  unfold stamp, setitem.
  destruct v; try discriminate.
  intros H. injection H as <-.
  eexists _, _. split; [reflexivity|]. split; [reflexivity|].
  split; [|split].
  - rewrite dict_get_set_other by discriminate. apply dict_get_set_same.
  - apply dict_get_set_same.
  - intros k H1 H2.
    rewrite dict_get_set_other by congruence.
    now rewrite dict_get_set_other by congruence.
Qed.

Lemma batches_of_app (t1 t2 : list event) :
  batches_of (t1 ++ t2) = batches_of t1 ++ batches_of t2.
Proof.
  induction t1 as [|e t1 IH]; cbn; [reflexivity|].
  destruct e; cbn; now rewrite ?IH.
Qed.

Lemma batches_of_inserts (c : string) (bs : list (list json)) :
  batches_of (map (EInsertMany c) bs) = bs.
Proof. induction bs; cbn; congruence. Qed.

Lemma dispatched_app (s s' : state) (t : list event) :
  trace s' = trace s ++ t -> dispatched s s' = batches_of t.
Proof.
  intros H. unfold dispatched. rewrite H.
  rewrite skipn_app, skipn_all, Nat.sub_diag. reflexivity.
Qed.

(** ** The decoder and the bulk writer *)

Lemma load_json_fast_decode (file_path : string) (s : state) :
  load_json_fast file_path s = (decode (zip_file s) file_path, s).
Proof.
  unfold load_json_fast, decode. unfold_monad.
  destruct (zip_file s) as [a|]; cbn; [|reflexivity].
  destruct (open_and_load a file_path) as [v|e]; cbn; [reflexivity|].
  destruct (caught_by_load_json e); reflexivity.
Qed.

(** What one [execute_batch] leaves behind, whatever the store answers. *)
Lemma execute_batch_effect (W : World) (c : string) (b : list json)
    (s : state) (r : result unit) (s' : state) :
  execute_batch W c b s = (r, s') ->
  trace s' = trace s ++ [EInsertMany c b] /\
  zip_file s' = zip_file s /\ db s' = db s /\ client s' = client s /\
  indexes s' = indexes s.
Proof.
  unfold execute_batch, insert_many. unfold_monad.
  remember (as_documents b) as od eqn:Hod. clear Hod.
  remember (w_insert W (List.length (trace s)) c b) as resp eqn:Hresp.
  clear Hresp.
  destruct b as [|j b']; cbn; [done_pair|].
  destruct od as [ds|]; cbn; [|done_pair].
  destruct resp as [|rej|e]; cbn; try done_pair.
  destruct (is_BulkWriteError e); cbn; [done_pair|].
  destruct (is_Exception e); cbn; done_pair.
Qed.

(** With a store that fails softly the dispatch returns normally. *)
Lemma execute_batch_returns (W : World) (c : string) (b : list json)
    (s : state) :
  (forall e, w_insert W (List.length (trace s)) c b = InsertRaises e ->
             is_Exception e = true) ->
  exists s', execute_batch W c b s = (Ok tt, s').
Proof.
  intros Hsoft.
  unfold execute_batch, insert_many. unfold_monad.
  remember (as_documents b) as od eqn:Hod. clear Hod.
  remember (w_insert W (List.length (trace s)) c b) as resp eqn:Hresp.
  destruct b as [|j b']; cbn; [eauto|].
  destruct od as [ds|]; cbn; [|eauto].
  destruct resp as [|rej|e]; cbn; eauto.
  destruct (is_BulkWriteError e); cbn; [eauto|].
  rewrite (Hsoft e eq_refl); cbn; eauto.
Qed.

(** ** The accumulation loop *)

Lemma process_files_nil (W : World) (f c : string) (n : Z)
    (bd : list json) (st : Stats) (s : state) :
  process_files W f c n [] bd st s = (Ok (bd, st), s).
Proof. reflexivity. Qed.

(** One iteration of the loop, spelled out. *)
Lemma process_files_cons (W : World) (f c : string) (n : Z) (p : string)
    (rest : list string) (bd : list json) (st : Stats) (s : state) :
  process_files W f c n (p :: rest) bd st s =
  match decode (zip_file s) p with
  | Raise e => (Raise e, s)
  | Ok v =>
      if truthy v then
        match stamp f p v with
        | Raise e => (Raise e, s)
        | Ok j =>
            if Z.of_nat (List.length (bd ++ [j])) >=? n then
              match execute_batch W c (bd ++ [j]) s with
              | (Ok _, s1) =>
                  process_files W f c n rest [] (incr_batch (incr_loaded st)) s1
              | (Raise e, s1) => (Raise e, s1)
              end
            else process_files W f c n rest (bd ++ [j]) (incr_loaded st) s
        end
      else process_files W f c n rest bd (incr_failed st) s
  end.
Proof.
  cbn [process_files]. unfold bind at 1.
  rewrite load_json_fast_decode.
  destruct (decode (zip_file s) p) as [v|e]; [|reflexivity].
  destruct (truthy v); [|reflexivity].
  unfold stamp. unfold_monad.
  destruct (setitem v "_source_file" (JStr p)) as [j1|e]; cbn; [|reflexivity].
  destruct (setitem j1 "_source_folder" (JStr f)) as [j2|e]; cbn; [|reflexivity].
  destruct (Z.of_nat (List.length (bd ++ [j2])) >=? n); reflexivity.
Qed.

Lemma record_of_stamp (z : option archive) (f p : string)
    (all : list string) (v j : json) :
  In p all -> decode z p = Ok v -> stamp f p v = Ok j -> record_of z f all j.
Proof.
  intros Hin Hd Hs.
  destruct (stamp_inv _ _ _ _ Hs) as (d0 & d & _ & -> & Hf & Hg & _).
  exists p, v, d. auto 10.
Qed.

(** The loop invariant: what has been dispatched and what is pending,
    on every exit of the loop. *)
Lemma process_files_spec (W : World) (f c : string) (n : Z)
    (all files : list string) :
  incl files all ->
  forall bd st s r s',
    process_files W f c n files bd st s = (r, s') ->
    exists bs,
      trace s' = trace s ++ map (EInsertMany c) bs /\
      (zip_file s' = zip_file s /\ db s' = db s /\ client s' = client s /\
       indexes s' = indexes s) /\
      (0 < n -> Z.of_nat (List.length bd) < n ->
       Forall (fun b => Z.of_nat (List.length b) = n) bs) /\
      Forall (fun b => b <> []) bs /\
      (Forall (record_of (zip_file s) f all) bd ->
       Forall (Forall (record_of (zip_file s) f all)) bs) /\
      match r with
      | Ok (bd', st') =>
          total_files st' = total_files st /\
          loaded_files st' =
            loaded_files st +
            Z.of_nat (List.length (records (zip_file s) f files)) /\
          loaded_files st' + failed_files st' =
            loaded_files st + failed_files st +
            Z.of_nat (List.length files) /\
          batch_count st' = batch_count st + Z.of_nat (List.length bs) /\
          (0 < n -> Z.of_nat (List.length bd) < n ->
           Z.of_nat (List.length bd') < n) /\
          (Forall (record_of (zip_file s) f all) bd ->
           Forall (record_of (zip_file s) f all) bd') /\
          List.concat bs ++ bd' = bd ++ records (zip_file s) f files
      | Raise _ => True
      end.
Proof.
  induction files as [|p rest IH]; intros Hincl bd st s r s' Hrun.
  - rewrite process_files_nil in Hrun. injection Hrun as <- <-.
    exists []. cbn. rewrite !app_nil_r.
    repeat split; auto; lia.
  - assert (Hp : In p all) by (apply Hincl; now left).
    assert (Hrest : incl rest all)
      by (intros x Hx; apply Hincl; now right).
    specialize (IH Hrest).
    rewrite process_files_cons in Hrun.
    cbn [records].
    destruct (decode (zip_file s) p) as [v|e] eqn:Hdec.
    2:{ injection Hrun as <- <-. exists []. cbn. rewrite app_nil_r.
        repeat split; auto. }
    destruct (truthy v) eqn:Htruthy.
    2:{ destruct (IH _ _ _ _ _ Hrun)
          as (bs & Ht & Hsame & Hfull & Hne & Hrec & Hok).
        exists bs. repeat split; try tauto.
        destruct r as [[bd' st']|e]; [|exact I].
        cbn in Hok. destruct Hok as (H1 & H2 & H3 & H4 & H5 & H6 & H7).
        repeat split; auto.
        cbn [List.length]. lia. }
    destruct (stamp f p v) as [j|e] eqn:Hstamp.
    2:{ injection Hrun as <- <-. exists []. cbn. rewrite app_nil_r.
        repeat split; auto. }
    assert (Hj : record_of (zip_file s) f all j)
      by (eapply record_of_stamp; eauto).
    assert (Hlen : Z.of_nat (List.length (bd ++ [j])) =
                   Z.of_nat (List.length bd) + 1)
      by (rewrite length_app; cbn; lia).
    destruct (Z.of_nat (List.length (bd ++ [j])) >=? n) eqn:Hge.
    + (* the batch is full: dispatch and start afresh *)
      destruct (execute_batch W c (bd ++ [j]) s) as [[[]|e] s1] eqn:Hex.
      2:{ injection Hrun as <- <-.
          destruct (execute_batch_effect _ _ _ _ _ _ Hex)
            as (Ht & Hz & Hd & Hc & Hi).
          exists [bd ++ [j]]. cbn.
          repeat split; auto.
          - intros Hn Hbd. constructor; [lia|constructor].
          - constructor; [|constructor]. now destruct bd.
          - intros Hbd. constructor; [|constructor].
            apply Forall_app. split; auto. }
      destruct (execute_batch_effect _ _ _ _ _ _ Hex)
        as (Ht & Hz & Hd & Hc & Hi).
      destruct (IH _ _ _ _ _ Hrun)
        as (bs & Ht' & Hsame & Hfull & Hne & Hrec & Hok).
      rewrite Hz in *.
      exists ((bd ++ [j]) :: bs).
      split; [|split; [|split; [|split; [|split]]]].
      * rewrite Ht', Ht. cbn. now rewrite <- app_assoc.
      * destruct Hsame as (-> & -> & -> & ->). auto.
      * intros Hn Hbd. constructor; [lia|].
        apply Hfull; cbn; lia.
      * constructor; auto. now destruct bd.
      * intros Hbd. constructor.
        { apply Forall_app. split; auto. }
        apply Hrec. constructor.
      * destruct r as [[bd' st']|e]; [|exact I].
        cbn in Hok. destruct Hok as (H1 & H2 & H3 & H4 & H5 & H6 & H7).
        cbn [List.length List.concat].
        repeat split; auto; try lia;
          try (intros Hn Hbd; apply H5; cbn; lia).
        rewrite <- !app_assoc. cbn in H7. rewrite H7. reflexivity.
    + (* the batch still has room *)
      destruct (IH _ _ _ _ _ Hrun)
        as (bs & Ht' & Hsame & Hfull & Hne & Hrec & Hok).
      exists bs.
      assert (Hbdj : Forall (record_of (zip_file s) f all) bd ->
                     Forall (record_of (zip_file s) f all) (bd ++ [j]))
        by (intros Hbd; apply Forall_app; split; auto).
      split; [|split; [|split; [|split; [|split]]]]; auto.
      * intros Hn Hbd. apply Hfull; lia.
      * destruct r as [[bd' st']|e]; [|exact I].
        cbn in Hok. destruct Hok as (H1 & H2 & H3 & H4 & H5 & H6 & H7).
        cbn [List.length].
        repeat split; auto; try lia;
          try (intros Hn Hbd; apply H5; lia).
        rewrite H7, <- app_assoc. reflexivity.
Qed.

Lemma full_but_last_snoc (n : Z) (bs : list (list json)) (b : list json) :
  Forall (fun x => Z.of_nat (List.length x) = n) bs ->
  full_but_last n (bs ++ [b]).
Proof.
  induction 1 as [|x bs Hx Hbs IH]; cbn; [exact I|].
  destruct (bs ++ [b]) eqn:E; [exact I|]. split; assumption.
Qed.

Lemma full_but_last_all (n : Z) (bs : list (list json)) :
  Forall (fun x => Z.of_nat (List.length x) = n) bs -> full_but_last n bs.
Proof.
  induction 1 as [|x bs Hx Hbs IH]; cbn; [exact I|].
  destruct bs; [exact I|]. split; assumption.
Qed.

(** ** One partition *)

(** Everything [process_folder] guarantees: the first clauses hold on every
    exit, the last one when it returns its statistics. *)
Lemma process_folder_spec (W : World) (f : string) (files : list string)
    (n : Z) (s : state) (r : result Stats) (s' : state) :
  process_folder W f files n s = (r, s') ->
  exists bs,
    trace s' = trace s ++ map (EInsertMany (collection_name_of W f)) bs /\
    (zip_file s' = zip_file s /\ db s' = db s /\ client s' = client s /\
     indexes s' = indexes s) /\
    (0 < n -> full_but_last n bs /\
              Forall (fun b => Z.of_nat (List.length b) <= n) bs) /\
    Forall (fun b => b <> []) bs /\
    Forall (Forall (record_of (zip_file s) f files)) bs /\
    match r with
    | Ok st =>
        db s = true /\
        total_files st = Z.of_nat (List.length files) /\
        loaded_files st + failed_files st = total_files st /\
        batch_count st = Z.of_nat (List.length bs) /\
        loaded_files st =
          Z.of_nat (List.length (records (zip_file s) f files)) /\
        List.concat bs = records (zip_file s) f files /\
        (0 < n -> exists full pending,
            Forall (fun b => Z.of_nat (List.length b) = n) full /\
            Z.of_nat (List.length pending) < n /\
            bs = full ++ match pending with [] => [] | _ => [pending] end)
    | Raise _ => True
    end.
Proof.
  unfold process_folder. unfold bind at 1. unfold get_db.
  destruct (db s) eqn:Hdb; cbn [negb].
  2:{ unfold raise. intros H. injection H as <- <-.
      exists []. cbn. rewrite app_nil_r.
      split; [reflexivity|]. split; [auto|]. split; [auto|].
      split; [constructor|]. split; [constructor|exact I]. }
  cbv zeta. unfold bind at 1. unfold get_collection.
  destruct (valid_collection_name (collection_name_of W f)).
  2:{ intros H. injection H as <- <-.
      exists []. cbn. rewrite app_nil_r.
      split; [reflexivity|]. split; [auto|]. split; [auto|].
      split; [constructor|]. split; [constructor|exact I]. }
  unfold bind at 1.
  destruct (process_files W f (collection_name_of W f) n files [] _ s)
    as [[[bd st]|e] s1] eqn:Hloop;
    destruct (process_files_spec W f (collection_name_of W f) n
                files files (incl_refl files) _ _ _ _ _ Hloop)
      as (bs & Ht & Hsame & Hfull & Hne & Hrec & Hok);
    rewrite Hdb in Hsame;
    specialize (Hrec (Forall_nil _));
    assert (Hfull' : 0 < n ->
              Forall (fun b => Z.of_nat (List.length b) = n) bs)
      by (intros Hn; apply Hfull; cbn; lia);
    assert (Hle : 0 < n ->
              Forall (fun b => Z.of_nat (List.length b) <= n) bs)
      by (intros Hn; eapply Forall_impl; [|apply (Hfull' Hn)];
          cbn; intros; lia).
  2:{ intros H. injection H as <- <-.
      exists bs. split; [exact Ht|]. split; [exact Hsame|].
      split; [intros Hn; split; [apply full_but_last_all|]; auto|].
      split; [exact Hne|]. split; [exact Hrec|exact I]. }
  cbn in Hok. destruct Hok as (H1 & H2 & H3 & H4 & H5 & H6 & H7).
  specialize (H6 (Forall_nil _)).
  assert (H5' : 0 < n -> Z.of_nat (List.length bd) < n)
    by (intros Hn; apply H5; cbn; lia).
  cbn in H1, H2, H3, H4, H7.
  destruct bd as [|j bd].
  - unfold ret. intros H. injection H as <- <-.
    exists bs. rewrite app_nil_r in H7.
    split; [exact Ht|]. split; [exact Hsame|].
    split; [intros Hn; split; [apply full_but_last_all|]; auto|].
    split; [exact Hne|]. split; [exact Hrec|].
    split; [reflexivity|]. split; [exact H1|]. split; [lia|].
    split; [lia|]. split; [lia|]. split; [exact H7|].
    intros Hn. exists bs, []. rewrite app_nil_r.
    split; [auto|]. split; [cbn; lia|reflexivity].
  - unfold bind, ret.
    assert (Hex' : exists r2 s2,
               execute_batch W (collection_name_of W f) (j :: bd) s1 = (r2, s2))
      by (destruct (execute_batch W (collection_name_of W f) (j :: bd) s1);
          eauto).
    destruct Hex' as (r2 & s2 & Hex). rewrite Hex.
    destruct (execute_batch_effect _ _ _ _ _ _ Hex) as (Ht2 & Hz & Hd & Hc & Hi).
    assert (Hcommon :
      trace s2 = trace s ++
                 map (EInsertMany (collection_name_of W f)) (bs ++ [j :: bd]) /\
      (zip_file s2 = zip_file s /\ db s2 = db s /\ client s2 = client s /\
       indexes s2 = indexes s) /\
      (0 < n -> full_but_last n (bs ++ [j :: bd]) /\
                Forall (fun b => Z.of_nat (List.length b) <= n)
                  (bs ++ [j :: bd])) /\
      Forall (fun b => b <> []) (bs ++ [j :: bd]) /\
      Forall (Forall (record_of (zip_file s) f files)) (bs ++ [j :: bd])).
    { split; [rewrite Ht2, Ht, map_app, <- app_assoc; reflexivity|].
      split; [rewrite Hz, Hd, Hc, Hi, Hdb; exact Hsame|].
      split.
      { intros Hn. split; [apply full_but_last_snoc; auto|].
        apply Forall_app. split; [auto|].
        constructor; [|constructor]. specialize (H5' Hn). lia. }
      split; apply Forall_app; split; try assumption;
        (constructor; [|constructor]); [discriminate|assumption]. }
    destruct Hcommon as (C1 & C2 & C3 & C4 & C5).
    destruct r2 as [[]|e]; intros H; injection H as <- <-;
      exists (bs ++ [j :: bd]);
      (split; [exact C1|]);
      (split; [rewrite Hdb in C2; exact C2|]); (split; [exact C3|]);
      (split; [exact C4|]); (split; [exact C5|]); [|exact I].
    cbn. rewrite length_app, concat_app. cbn. rewrite app_nil_r.
    split; [reflexivity|]. split; [exact H1|]. split; [lia|].
    split; [lia|]. split; [lia|]. split; [exact H7|].
    intros Hn. exists bs, (j :: bd).
    split; [auto|]. split; [auto|reflexivity].
Qed.

Lemma process_files_completes (W : World) (f c : string) (n : Z)
    (files : list string) :
  store_fails_softly W ->
  forall bd st s,
    loadable (zip_file s) files ->
    exists bd' st' s', process_files W f c n files bd st s = (Ok (bd', st'), s').
Proof.
  intros Hsoft.
  induction files as [|p rest IH]; intros bd st s Hload.
  - rewrite process_files_nil. eauto.
  - rewrite process_files_cons.
    assert (Hrest : forall s1, zip_file s1 = zip_file s ->
                               loadable (zip_file s1) rest).
    { intros s1 -> q Hq. apply Hload. now right. }
    destruct (Hload p (or_introl eq_refl)) as (v & -> & Hobj).
    destruct (truthy v); [|apply IH; auto].
    destruct (Hobj eq_refl) as (d & ->). cbn.
    match goal with |- context [if ?b then _ else _] => destruct b end;
      [|apply IH; auto].
    match goal with |- context [execute_batch W c ?b s] =>
      destruct (execute_batch_returns W c b s) as (s1 & Hex);
        [intros e; apply Hsoft|]; rewrite Hex;
        destruct (execute_batch_effect _ _ _ _ _ _ Hex) as (_ & Hz & _)
    end.
    apply IH; auto.
Qed.

Lemma process_folder_completes (W : World) (f : string)
    (files : list string) (n : Z) (s : state) :
  store_fails_softly W -> db s = true ->
  valid_collection_name (collection_name_of W f) = true ->
  loadable (zip_file s) files ->
  exists st s', process_folder W f files n s = (Ok st, s').
Proof.
  intros Hsoft Hdb Hvalid Hload.
  unfold process_folder. unfold bind at 1. unfold get_db. rewrite Hdb.
  cbn [negb]. cbv zeta. unfold bind at 1. unfold get_collection.
  rewrite Hvalid. unfold bind at 1.
  match goal with |- context [process_files W f ?c n files [] ?st s] =>
    destruct (@process_files_completes W f c n files Hsoft [] st s Hload)
      as (bd & st' & s1 & ->)
  end.
  destruct bd as [|j bd]; [unfold ret; eauto|].
  destruct (execute_batch_returns W (collection_name_of W f) (j :: bd) s1)
    as (s2 & Hex); [intros e; apply Hsoft|].
  unfold bind, ret. rewrite Hex. eauto.
Qed.

(** ** Properties of one partition *)

(** C3. With a batch capacity greater than zero, every batch handed to the
    Bulk Writer by [process_folder] except possibly the last one holds
    exactly the capacity, none holds more, and none is empty; this holds on
    every exit of [process_folder]. *)
Theorem batch_capacity_respected (W : World) (folder_name : string)
    (file_list : list string) (batch_size : Z) (s : state) :
  0 < batch_size ->
  let bs := dispatched s (snd (process_folder W folder_name file_list
                                 batch_size s)) in
  full_but_last batch_size bs /\
  Forall (fun b => 0 < Z.of_nat (List.length b) <= batch_size) bs.
Proof.
  intros Hn.
  destruct (process_folder W folder_name file_list batch_size s)
    as [r s'] eqn:Hrun.
  destruct (process_folder_spec _ _ _ _ _ _ _ Hrun)
    as (bs & Ht & _ & Hsize & Hne & _).
  cbn [snd]. rewrite (dispatched_app _ _ _ Ht), batches_of_inserts.
  destruct (Hsize Hn) as (Hfull & Hle).
  split; [exact Hfull|].
  rewrite Forall_forall in *. intros b Hb.
  specialize (Hle b Hb). specialize (Hne b Hb).
  destruct b; [congruence|]. cbn [List.length] in *. lia.
Qed.

Lemma batch_capacity_respected_witness :
  0 < 2 /\
  (let bs := dispatched (Samples.ready (Samples.world Samples.small_archive)
                           Samples.small_archive)
               (snd (process_folder (Samples.world Samples.small_archive)
                       "Ventas 2024" Samples.small_files 2
                       (Samples.ready (Samples.world Samples.small_archive)
                          Samples.small_archive))) in
   full_but_last 2 bs /\
   Forall (fun b => 0 < Z.of_nat (List.length b) <= 2) bs).
Proof.
  split; [lia|].
  apply (batch_capacity_respected (Samples.world Samples.small_archive)
           "Ventas 2024" Samples.small_files 2).
  lia.
Defined.

(** C4. Every record of every batch handed to the Bulk Writer is a document
    decoded from an entry of the partition, carrying [_source_file] equal
    to that entry and [_source_folder] equal to the partition name,
    whatever keys the decoded document had. *)
Theorem provenance_fields_present (W : World) (folder_name : string)
    (file_list : list string) (batch_size : Z) (s : state) :
  Forall (Forall (record_of (zip_file s) folder_name file_list))
    (dispatched s (snd (process_folder W folder_name file_list
                          batch_size s))).
Proof.
  destruct (process_folder W folder_name file_list batch_size s)
    as [r s'] eqn:Hrun.
  destruct (process_folder_spec _ _ _ _ _ _ _ Hrun)
    as (bs & Ht & _ & _ & _ & Hrec & _).
  cbn [snd]. rewrite (dispatched_app _ _ _ Ht), batches_of_inserts.
  exact Hrec.
Qed.

(** The provenance write replaces what the source document said. *)
Example provenance_overrides_source :
  stamp "Ventas 2024" "Ventas 2024/c.json" Samples.forged =
  Ok (JObj [("_source_file", JStr "Ventas 2024/c.json");
            ("_source_folder", JStr "Ventas 2024");
            ("factura_num", JInt 9)]).
Proof. reflexivity. Qed.

(** C9. When [process_folder] returns its statistics, loaded plus failed
    equals the total, the total is the length of the entry list, and the
    batch count is the number of [execute_batch] calls (each one issues one
    [insert_many]) made for the partition. *)
Theorem stats_consistent (W : World) (folder_name : string)
    (file_list : list string) (batch_size : Z) (s : state) (st : Stats) :
  fst (process_folder W folder_name file_list batch_size s) = Ok st ->
  loaded_files st + failed_files st = total_files st /\
  total_files st = Z.of_nat (List.length file_list) /\
  batch_count st =
    Z.of_nat (List.length
      (dispatched s (snd (process_folder W folder_name file_list
                            batch_size s)))).
Proof.
  destruct (process_folder W folder_name file_list batch_size s)
    as [r s'] eqn:Hrun.
  cbn [fst snd]. intros ->.
  destruct (process_folder_spec _ _ _ _ _ _ _ Hrun)
    as (bs & Ht & _ & _ & _ & _ & Hok).
  destruct Hok as (_ & Htot & Hsum & Hcount & _).
  rewrite (dispatched_app _ _ _ Ht), batches_of_inserts. auto.
Qed.

Lemma stats_consistent_witness :
  fst (process_folder (Samples.world Samples.small_archive) "Ventas 2024"
         Samples.small_files 2
         (Samples.ready (Samples.world Samples.small_archive)
            Samples.small_archive)) =
    Ok {| total_files := 5; loaded_files := 3; failed_files := 2;
          batch_count := 2 |} /\
  (3 + 2 = 5 /\ 5 = Z.of_nat (List.length Samples.small_files) /\
   2 = Z.of_nat (List.length
         (dispatched (Samples.ready (Samples.world Samples.small_archive)
                        Samples.small_archive)
            (snd (process_folder (Samples.world Samples.small_archive)
                    "Ventas 2024" Samples.small_files 2
                    (Samples.ready (Samples.world Samples.small_archive)
                       Samples.small_archive)))))).
Proof.
  split; [reflexivity|].
  apply (stats_consistent (Samples.world Samples.small_archive)
           "Ventas 2024" Samples.small_files 2
           (Samples.ready (Samples.world Samples.small_archive)
              Samples.small_archive)
           {| total_files := 5; loaded_files := 3; failed_files := 2;
              batch_count := 2 |}).
  reflexivity.
Defined.

(** C10. Called before the archive has been opened, [load_json_fast]
    returns [None] without raising and without touching the loader, and so
    does it for an entry that is missing or whose bytes are not valid JSON:
    the caller sees the same value. *)
Theorem load_json_fast_unopened (file_path : string) (s : state) :
  zip_file s = None ->
  load_json_fast file_path s = (Ok JNull, s) /\
  forall (a : archive) (s2 : state),
    zip_file s2 = Some a ->
    getinfo a file_path = None \/
    getinfo a file_path = Some (Broken JSONDecodeError) ->
    fst (load_json_fast file_path s2) = fst (load_json_fast file_path s).
Proof.
  intros Hz. rewrite load_json_fast_decode, Hz. cbn [decode].
  split; [reflexivity|].
  intros a s2 Ha Hinfo.
  rewrite load_json_fast_decode, Ha. cbn [fst]. unfold decode, open_and_load.
  destruct Hinfo as [-> | ->]; reflexivity.
Qed.

Lemma load_json_fast_unopened_witness :
  zip_file (init_state (Samples.world Samples.small_archive)) = None /\
  (load_json_fast "Ventas 2024/a.json"
     (init_state (Samples.world Samples.small_archive)) =
     (Ok JNull, init_state (Samples.world Samples.small_archive)) /\
   forall (a : archive) (s2 : state),
     zip_file s2 = Some a ->
     getinfo a "Ventas 2024/a.json" = None \/
     getinfo a "Ventas 2024/a.json" = Some (Broken JSONDecodeError) ->
     fst (load_json_fast "Ventas 2024/a.json" s2) =
     fst (load_json_fast "Ventas 2024/a.json"
            (init_state (Samples.world Samples.small_archive)))).
Proof.
  split; [reflexivity|].
  apply (load_json_fast_unopened "Ventas 2024/a.json"
           (init_state (Samples.world Samples.small_archive))).
  reflexivity.
Defined.

(** ** The decoder seen from the accumulator *)

(** The decoder hands back the parsed document of every entry that is in
    the open archive with valid bytes. *)
Lemma load_json_fast_valid (a : archive) (file_path : string) (v : json)
    (s : state) :
  zip_file s = Some a -> getinfo a file_path = Some (Doc v) ->
  load_json_fast file_path s = (Ok v, s).
Proof.
  intros Hz Hinfo. rewrite load_json_fast_decode, Hz.
  unfold decode, open_and_load. now rewrite Hinfo.
Qed.

(** An entry that is missing or not valid JSON is counted as failed and the
    loop goes on with the next entry. *)
Lemma failed_decode_is_skipped (W : World) (f c : string) (n : Z)
    (a : archive) (p : string) (rest : list string) (bd : list json)
    (st : Stats) (s : state) :
  zip_file s = Some a ->
  getinfo a p = None \/ getinfo a p = Some (Broken JSONDecodeError) ->
  process_files W f c n (p :: rest) bd st s =
  process_files W f c n rest bd (incr_failed st) s.
Proof.
  intros Hz Hinfo. rewrite process_files_cons, Hz.
  unfold decode, open_and_load.
  destruct Hinfo as [-> | ->]; reflexivity.
Qed.

(** C1. At an entry holding the empty JSON object, which is syntactically
    valid JSON, the decoder returns the parsed document, yet
    [process_folder] counts the entry as a failed decode, loads nothing and
    dispatches no batch. *)
Theorem empty_document_counted_as_failed :
  let W := Samples.world Samples.edge_archive in
  let s := Samples.ready W Samples.edge_archive in
  getinfo Samples.edge_archive "f/empty.json" = Some (Doc (JObj [])) /\
  load_json_fast "f/empty.json" s = (Ok (JObj []), s) /\
  process_folder W "f" ["f/empty.json"] 8000 s =
    (Ok {| total_files := 1; loaded_files := 0; failed_files := 1;
           batch_count := 0 |}, s).
Proof. repeat split. Qed.

(** A valid entry whose top-level value is an array makes the provenance
    write raise, which ends the partition. *)
Example array_document_aborts_partition :
  let W := Samples.world Samples.edge_archive in
  let s := Samples.ready W Samples.edge_archive in
  fst (process_folder W "f" ["f/array.json"; "f/empty.json"] 8000 s) =
  Raise TypeError.
Proof. reflexivity. Qed.

(** ** Failures of the store *)

Lemma process_folder_unfold (W : World) (f : string) (files : list string)
    (n : Z) (s : state) :
  process_folder W f files n s =
  if db s then
    if valid_collection_name (collection_name_of W f) then
      match process_files W f (collection_name_of W f) n files []
              {| total_files := Z.of_nat (List.length files);
                 loaded_files := 0; failed_files := 0; batch_count := 0 |} s
      with
      | (Ok (bd, st), s1) =>
          match bd with
          | [] => (Ok st, s1)
          | _ :: _ =>
              match execute_batch W (collection_name_of W f) bd s1 with
              | (Ok _, s2) => (Ok (incr_batch st), s2)
              | (Raise e, s2) => (Raise e, s2)
              end
          end
      | (Raise e, s1) => (Raise e, s1)
      end
    else (Raise InvalidName, s)
  else (Raise RuntimeError, s).
Proof.
  unfold process_folder, get_collection. unfold_monad.
  destruct (db s); cbn [negb]; [|reflexivity].
  destruct (valid_collection_name (collection_name_of W f)); [|reflexivity].
  destruct (process_files W f (collection_name_of W f) n files [] _ s)
    as [[[bd st]|e] s1]; [|reflexivity].
  destruct bd; reflexivity.
Qed.

Lemma reliable_store_fails_softly (W : World) :
  store_fails_softly (with_reliable_store W).
Proof. intros t c b e. cbn. discriminate. Qed.

(** The loop takes the same path whatever the store answers, as long as
    its failures are ordinary exceptions. *)
Lemma process_files_store_blind (W W' : World) (f c : string) (n : Z)
    (files : list string) :
  store_fails_softly W -> store_fails_softly W' ->
  forall bd st s1 s2,
    zip_file s1 = zip_file s2 -> trace s1 = trace s2 ->
    fst (process_files W f c n files bd st s1) =
    fst (process_files W' f c n files bd st s2) /\
    trace (snd (process_files W f c n files bd st s1)) =
    trace (snd (process_files W' f c n files bd st s2)).
Proof.
  intros Hsoft Hsoft'.
  induction files as [|p rest IH]; intros bd st s1 s2 Hz Ht.
  - rewrite !process_files_nil. auto.
  - rewrite !process_files_cons, Hz.
    destruct (decode (zip_file s2) p) as [v|e]; [|auto].
    destruct (truthy v); [|auto].
    destruct (stamp f p v) as [j|e]; [|auto].
    destruct (Z.of_nat (List.length (bd ++ [j])) >=? n); [|auto].
    destruct (execute_batch_returns W c (bd ++ [j]) s1) as (s1' & H1);
      [intros e; apply Hsoft|].
    destruct (execute_batch_returns W' c (bd ++ [j]) s2) as (s2' & H2);
      [intros e; apply Hsoft'|].
    rewrite H1, H2.
    destruct (execute_batch_effect _ _ _ _ _ _ H1) as (T1 & Z1 & _).
    destruct (execute_batch_effect _ _ _ _ _ _ H2) as (T2 & Z2 & _).
    apply IH; congruence.
Qed.

(** C5. With a store whose failures are ordinary exceptions,
    [execute_batch] returns normally for every batch, whether the store
    accepted it, rejected part of it or failed as a whole; and
    [process_folder] returns the statistics and dispatches the batches it
    would with a store that accepts everything, so the run goes on to the
    next batch. *)
Theorem bulk_write_failures_absorbed (W : World) (collection : string)
    (batch_data : list json) (s : state) :
  store_fails_softly W ->
  (exists s', execute_batch W collection batch_data s = (Ok tt, s') /\
              trace s' = trace s ++ [EInsertMany collection batch_data]) /\
  forall folder_name file_list batch_size s0,
    fst (process_folder W folder_name file_list batch_size s0) =
    fst (process_folder (with_reliable_store W) folder_name file_list
           batch_size s0) /\
    dispatched s0 (snd (process_folder W folder_name file_list
                          batch_size s0)) =
    dispatched s0 (snd (process_folder (with_reliable_store W) folder_name
                          file_list batch_size s0)).
Proof.
  intros Hsoft. split.
  - destruct (execute_batch_returns W collection batch_data s)
      as (s' & Hex); [intros e; apply Hsoft|].
    exists s'. split; [exact Hex|].
    now destruct (execute_batch_effect _ _ _ _ _ _ Hex).
  - intros f files n s0.
    pose proof (reliable_store_fails_softly W) as Hsoft'.
    unfold dispatched.
    cut (fst (process_folder W f files n s0) =
         fst (process_folder (with_reliable_store W) f files n s0) /\
         trace (snd (process_folder W f files n s0)) =
         trace (snd (process_folder (with_reliable_store W) f files n s0))).
    { intros (-> & ->). auto. }
    rewrite !process_folder_unfold.
    change (collection_name_of (with_reliable_store W) f)
      with (collection_name_of W f).
    destruct (db s0); [|auto].
    destruct (valid_collection_name (collection_name_of W f)); [|auto].
    match goal with
    | |- context [process_files W f ?c n files [] ?st s0] =>
        pose proof (process_files_store_blind W (with_reliable_store W)
                      f c n files Hsoft Hsoft' [] st s0 s0
                      eq_refl eq_refl) as (Hr & Ht);
        destruct (process_files W f c n files [] st s0)
          as [[[bd1 st1]|e1] s1];
        destruct (process_files (with_reliable_store W) f c n files [] st s0)
          as [[[bd2 st2]|e2] s2]
    end; cbn [fst snd] in Hr, Ht; try discriminate;
      [|injection Hr as ->; auto].
    injection Hr as -> ->.
    destruct bd2 as [|j bd]; [auto|].
    destruct (execute_batch_returns W (collection_name_of W f) (j :: bd) s1)
      as (s1' & H1); [intros e; apply Hsoft|].
    destruct (execute_batch_returns (with_reliable_store W)
                (collection_name_of W f) (j :: bd) s2)
      as (s2' & H2); [intros e; apply Hsoft'|].
    rewrite H1, H2. cbn [fst snd].
    destruct (execute_batch_effect _ _ _ _ _ _ H1) as (T1 & _).
    destruct (execute_batch_effect _ _ _ _ _ _ H2) as (T2 & _).
    split; congruence.
Qed.

Lemma flaky_store_fails_softly (a : archive) :
  store_fails_softly (Samples.flaky_world a).
Proof.
  intros t c b e. cbn.
  destruct (Nat.eqb t 4); intros H; [|discriminate].
  injection H as <-. reflexivity.
Qed.

Lemma bulk_write_failures_absorbed_witness :
  store_fails_softly (Samples.flaky_world Samples.small_archive) /\
  ((exists s',
      execute_batch (Samples.flaky_world Samples.small_archive)
        "ventas_2024" [Samples.invoice 1; Samples.invoice 2; Samples.forged]
        (Samples.ready (Samples.flaky_world Samples.small_archive)
           Samples.small_archive) = (Ok tt, s') /\
      trace s' =
        trace (Samples.ready (Samples.flaky_world Samples.small_archive)
                 Samples.small_archive) ++
        [EInsertMany "ventas_2024"
           [Samples.invoice 1; Samples.invoice 2; Samples.forged]]) /\
   forall folder_name file_list batch_size s0,
     fst (process_folder (Samples.flaky_world Samples.small_archive)
            folder_name file_list batch_size s0) =
     fst (process_folder
            (with_reliable_store (Samples.flaky_world Samples.small_archive))
            folder_name file_list batch_size s0) /\
     dispatched s0
       (snd (process_folder (Samples.flaky_world Samples.small_archive)
               folder_name file_list batch_size s0)) =
     dispatched s0
       (snd (process_folder
               (with_reliable_store
                  (Samples.flaky_world Samples.small_archive))
               folder_name file_list batch_size s0))).
Proof.
  split; [apply flaky_store_fails_softly|].
  apply (bulk_write_failures_absorbed
           (Samples.flaky_world Samples.small_archive) "ventas_2024"
           [Samples.invoice 1; Samples.invoice 2; Samples.forged]
           (Samples.ready (Samples.flaky_world Samples.small_archive)
              Samples.small_archive)).
  apply flaky_store_fails_softly.
Defined.

(** A batch of which the store rejects two documents: the third one is
    persisted and the call returns normally. *)
Example partial_failure_keeps_accepted :
  let W := Samples.flaky_world Samples.small_archive in
  let r := execute_batch W "ventas_2024"
             [Samples.invoice 1; Samples.invoice 2; Samples.invoice 3]
             (Samples.ready W Samples.small_archive) in
  fst r = Ok tt /\
  Dict.get "ventas_2024" (docs (snd r)) =
    Some [[("factura_num", JInt 3); ("total", JInt 1500)]].
Proof. split; reflexivity. Qed.

(** ** Scenario A *)

Lemma well_formed_decodes (a : archive) (f p : string) :
  well_formed_entry a p ->
  exists v j, decode (Some a) p = Ok v /\ truthy v = true /\
              (exists d, v = JObj d) /\ stamp f p v = Ok j.
Proof.
  intros (k & v & d & H).
  exists (JObj ((k, v) :: d)).
  eexists. unfold decode, open_and_load. rewrite H.
  split; [reflexivity|]. split; [reflexivity|].
  split; [eauto|]. reflexivity.
Qed.

Lemma well_formed_loadable (a : archive) (files : list string) :
  Forall (well_formed_entry a) files -> loadable (Some a) files.
Proof.
  intros H p Hp. rewrite Forall_forall in H.
  destruct (well_formed_decodes a "" p (H p Hp)) as (v & j & Hd & _ & Ho & _).
  exists v. split; [exact Hd|]. intros _. exact Ho.
Qed.

Lemma well_formed_records (a : archive) (f : string) (files : list string) :
  Forall (well_formed_entry a) files ->
  List.length (records (Some a) f files) = List.length files.
Proof.
  induction 1 as [|p files Hp Hfiles IH]; cbn [records]; [reflexivity|].
  destruct (well_formed_decodes a f p Hp) as (v & j & -> & -> & _ & ->).
  cbn [List.length]. now rewrite IH.
Qed.

Lemma sizes_app (b1 b2 : list (list json)) :
  sizes (b1 ++ b2) = sizes b1 ++ sizes b2.
Proof. unfold sizes. apply map_app. Qed.

Lemma sizes_full (n : Z) (bs : list (list json)) :
  Forall (fun b => Z.of_nat (List.length b) = n) bs ->
  sizes bs = repeat n (List.length bs) /\
  Z.of_nat (List.length (List.concat bs)) = n * Z.of_nat (List.length bs).
Proof.
  induction 1 as [|b bs Hb Hbs (IH1 & IH2)]; cbn [sizes map repeat List.length List.concat].
  - split; [reflexivity|lia].
  - fold (sizes bs). rewrite IH1, Hb, length_app. split; [reflexivity|lia].
Qed.

(** A partition of well-formed entries: the sizes of its batches are the
    quotient and the remainder of its length by the capacity. *)
Lemma well_formed_partition (W : World) (a : archive) (f : string)
    (files : list string) (n : Z) (s : state) :
  store_fails_softly W -> db s = true -> zip_file s = Some a ->
  valid_collection_name (collection_name_of W f) = true ->
  Forall (well_formed_entry a) files -> 0 < n ->
  exists st s' bs k r,
    process_folder W f files n s = (Ok st, s') /\
    trace s' = trace s ++ map (EInsertMany (collection_name_of W f)) bs /\
    db s' = true /\ zip_file s' = Some a /\
    loaded_files st = Z.of_nat (List.length files) /\
    failed_files st = 0 /\
    Z.of_nat (List.length files) = n * Z.of_nat k + r /\ 0 <= r < n /\
    sizes bs = repeat n k ++ (if r =? 0 then [] else [r]).
Proof.
  intros Hsoft Hdb Hz Hvalid Hwf Hn.
  destruct (process_folder_completes W f files n s Hsoft Hdb Hvalid)
    as (st & s' & Hrun).
  { rewrite Hz. now apply well_formed_loadable. }
  destruct (process_folder_spec _ _ _ _ _ _ _ Hrun)
    as (bs & Ht & (Hz' & Hdb' & _) & _ & _ & _ & Hok).
  destruct Hok as (_ & Htot & Hsum & _ & Hloaded & Hcat & Hshape).
  destruct (Hshape Hn) as (full & pending & Hfull & Hpend & ->).
  rewrite Hz in Hloaded, Hcat.
  rewrite (well_formed_records a f files Hwf) in Hloaded.
  destruct (sizes_full n full Hfull) as (Hsz & Hlen).
  assert (Hall : Z.of_nat (List.length files) =
                 n * Z.of_nat (List.length full) +
                 Z.of_nat (List.length pending)).
  { rewrite <- (well_formed_records a f files Hwf), <- Hcat.
    rewrite concat_app, length_app.
    rewrite Nat2Z.inj_add, Hlen. f_equal.
    destruct pending; cbn [List.concat]; rewrite ?app_nil_r; reflexivity. }
  exists st, s', (full ++ match pending with [] => [] | _ => [pending] end),
    (List.length full), (Z.of_nat (List.length pending)).
  split; [exact Hrun|]. split; [exact Ht|].
  split; [congruence|]. split; [congruence|].
  split; [exact Hloaded|]. split; [lia|].
  split; [exact Hall|]. split; [lia|].
  rewrite sizes_app, Hsz. f_equal.
  destruct pending; reflexivity.
Qed.

(** C6. Three partitions of 10, 5 and 0 well-formed entries, under names
    whose collections the driver accepts, processed one after the other
    with batch capacity 4: the first dispatches batches of 4, 4 and 2
    records, the second batches of 4 and 1, the third none, and 15
    documents are handed to the store in all. *)
Theorem scenario_A (W : World) (a : archive) (f1 f2 f3 : string)
    (l1 l2 l3 : list string) (s : state) :
  store_fails_softly W -> db s = true -> zip_file s = Some a ->
  valid_collection_name (collection_name_of W f1) = true ->
  valid_collection_name (collection_name_of W f2) = true ->
  valid_collection_name (collection_name_of W f3) = true ->
  Forall (well_formed_entry a) (l1 ++ l2 ++ l3) ->
  List.length l1 = 10%nat -> List.length l2 = 5%nat ->
  List.length l3 = 0%nat ->
  exists st1 s1 st2 s2 st3 s3,
    process_folder W f1 l1 4 s = (Ok st1, s1) /\
    process_folder W f2 l2 4 s1 = (Ok st2, s2) /\
    process_folder W f3 l3 4 s2 = (Ok st3, s3) /\
    sizes (dispatched s s1) = [4; 4; 2] /\
    sizes (dispatched s1 s2) = [4; 1] /\
    dispatched s2 s3 = [] /\
    total (sizes (dispatched s s3)) = 15 /\
    loaded_files st1 + loaded_files st2 + loaded_files st3 = 15.
Proof.
  intros Hsoft Hdb Hz V1 V2 V3 Hwf H1 H2 H3.
  apply Forall_app in Hwf. destruct Hwf as (Hwf1 & Hwf).
  apply Forall_app in Hwf. destruct Hwf as (Hwf2 & Hwf3).
  destruct (well_formed_partition W a f1 l1 4 s Hsoft Hdb Hz V1 Hwf1)
    as (st1 & s1 & bs1 & k1 & r1 & R1 & T1 & D1 & Z1 & L1 & _ & E1 & B1 & S1);
    [lia|].
  destruct (well_formed_partition W a f2 l2 4 s1 Hsoft D1 Z1 V2 Hwf2)
    as (st2 & s2 & bs2 & k2 & r2 & R2 & T2 & D2 & Z2 & L2 & _ & E2 & B2 & S2);
    [lia|].
  destruct (well_formed_partition W a f3 l3 4 s2 Hsoft D2 Z2 V3 Hwf3)
    as (st3 & s3 & bs3 & k3 & r3 & R3 & T3 & D3 & Z3 & L3 & _ & E3 & B3 & S3);
    [lia|].
  rewrite H1 in E1, L1. rewrite H2 in E2, L2. rewrite H3 in E3, L3.
  assert (k1 = 2%nat /\ r1 = 2) as (-> & ->) by lia.
  assert (k2 = 1%nat /\ r2 = 1) as (-> & ->) by lia.
  assert (k3 = 0%nat /\ r3 = 0) as (-> & ->) by lia.
  cbn in S1, S2, S3.
  assert (Hbs3 : bs3 = []) by (destruct bs3; [reflexivity|discriminate]).
  exists st1, s1, st2, s2, st3, s3.
  split; [exact R1|]. split; [exact R2|]. split; [exact R3|].
  rewrite (dispatched_app _ _ _ T1), (dispatched_app _ _ _ T2),
    (dispatched_app _ _ _ T3), !batches_of_inserts.
  split; [exact S1|]. split; [exact S2|]. split; [exact Hbs3|].
  split; [|lia].
  assert (T : trace s3 = trace s ++
                map (EInsertMany (collection_name_of W f1)) bs1 ++
                map (EInsertMany (collection_name_of W f2)) bs2 ++
                map (EInsertMany (collection_name_of W f3)) bs3)
    by (rewrite T3, T2, T1, <- !app_assoc; reflexivity).
  rewrite (dispatched_app _ _ _ T), !batches_of_app, !batches_of_inserts,
    !sizes_app, S1, S2, S3.
  reflexivity.
Qed.

Lemma scenario_A_witness :
  exists st1 s1 st2 s2 st3 s3,
    process_folder (Samples.world Samples.scenario_archive) "enero"
      Samples.ten_files 4
      (Samples.ready (Samples.world Samples.scenario_archive)
         Samples.scenario_archive) = (Ok st1, s1) /\
    process_folder (Samples.world Samples.scenario_archive) "febrero"
      Samples.five_files 4 s1 = (Ok st2, s2) /\
    process_folder (Samples.world Samples.scenario_archive) "marzo" [] 4 s2 =
      (Ok st3, s3) /\
    sizes (dispatched (Samples.ready (Samples.world Samples.scenario_archive)
                         Samples.scenario_archive) s1) = [4; 4; 2] /\
    sizes (dispatched s1 s2) = [4; 1] /\
    dispatched s2 s3 = [] /\
    total (sizes (dispatched (Samples.ready
                                (Samples.world Samples.scenario_archive)
                                Samples.scenario_archive) s3)) = 15 /\
    loaded_files st1 + loaded_files st2 + loaded_files st3 = 15.
Proof.
  apply (scenario_A (Samples.world Samples.scenario_archive)
           Samples.scenario_archive "enero" "febrero" "marzo"
           Samples.ten_files Samples.five_files []
           (Samples.ready (Samples.world Samples.scenario_archive)
              Samples.scenario_archive)).
  - intros t c b e. cbn. discriminate.
  - reflexivity.
  - reflexivity.
  - reflexivity.
  - reflexivity.
  - reflexivity.
  - repeat constructor; do 3 eexists; vm_compute; reflexivity.
  - reflexivity.
  - reflexivity.
  - reflexivity.
Defined.

(** ** The run without a store *)

(** C7. When the connection string is empty or absent, or the connection to
    the store cannot be established, [main] ends without opening or listing
    the archive and without dispatching a batch; the store is left as it
    was, no completion is reported, and the failure is reported on the
    console or leaves [main] as an exception. *)
Theorem no_connection_no_load (W : World) (mongo_uri : option string) :
  uri_missing mongo_uri = true \/ w_connect W <> Connected ->
  let r := main W mongo_uri (init_state W) in
  existsb is_open_zip (trace (snd r)) = false /\
  zip_file (snd r) = None /\
  existsb is_insert (trace (snd r)) = false /\
  docs (snd r) = w_store0 W /\
  existsb is_completed (trace (snd r)) = false /\
  (existsb fatal_report (trace (snd r)) = true \/
   exists e, fst r = Raise e).
Proof.
  intros H. unfold main.
  destruct (uri_missing mongo_uri).
  - cbn. auto 10.
  - destruct H as [H|H]; [discriminate|].
    unfold run_complete_process, connect_to_mongodb.
    destruct (w_connect W) as [|e|e]; [congruence| |];
      destruct e; cbn; eauto 10.
Qed.

Lemma no_connection_no_load_witness :
  (uri_missing (Some "mongodb+srv://cluster0") = true \/
   w_connect (Samples.offline_world Samples.small_archive) <> Connected) /\
  (let r := main (Samples.offline_world Samples.small_archive)
              (Some "mongodb+srv://cluster0")
              (init_state (Samples.offline_world Samples.small_archive)) in
   existsb is_open_zip (trace (snd r)) = false /\
   zip_file (snd r) = None /\
   existsb is_insert (trace (snd r)) = false /\
   docs (snd r) = w_store0 (Samples.offline_world Samples.small_archive) /\
   existsb is_completed (trace (snd r)) = false /\
   (existsb fatal_report (trace (snd r)) = true \/
    exists e, fst r = Raise e)).
Proof.
  split; [right; discriminate|].
  apply (no_connection_no_load (Samples.offline_world Samples.small_archive)
           (Some "mongodb+srv://cluster0")).
  right. discriminate.
Defined.

(** The two ways the run ends when the store cannot be used. *)
Example run_without_uri :
  main (Samples.world Samples.small_archive) (Some "")
    (init_state (Samples.world Samples.small_archive)) =
  (Ok tt,
   {| client := false; db := false; zip_file := None; docs := [];
      indexes := []; trace := [EReport MsgUriMissing] |}).
Proof. reflexivity. Qed.

Example run_offline :
  trace (snd (main (Samples.offline_world Samples.small_archive)
                (Some "mongodb+srv://cluster0")
                (init_state (Samples.offline_world Samples.small_archive)))) =
  [EConnect; EPing; EReport MsgConnectionError; EReport MsgLoadFailed;
   ECloseClient; EReport MsgClosed].
Proof. reflexivity. Qed.

(** ** The index builder *)

Lemma sample_has_present (sample : option document) (field : string) :
  sample_has sample field = field_present sample field.
Proof.
  destruct sample as [d|]; [|reflexivity].
  unfold sample_has, field_present, Dict.mem, Dict.keys.
  destruct d as [|kv d]; [reflexivity|].
  generalize (kv :: d). clear. intros d.
  induction d as [|[k v] d IH]; cbn; [reflexivity|].
  destruct (String.eqb field k); [reflexivity|exact IH].
Qed.

Lemma tame_ret {A} (a : A) : tame (ret a).
Proof.
  intros s r s' H. injection H as <- <-.
  repeat split; auto. exists []. now rewrite app_nil_r.
Qed.

Lemma tame_log (e : event) : tame (log e).
Proof.
  intros s r s' H. injection H as <- <-. cbn.
  repeat split; auto. eauto.
Qed.

Lemma tame_bind {A B} (m : M A) (k : A -> M B) :
  tame m -> (forall a, tame (k a)) -> tame (bind m k).
Proof.
  intros Hm Hk s r s' H. unfold bind in H.
  destruct (m s) as [[a|e] s1] eqn:E.
  - destruct (Hm _ _ _ E) as (D1 & B1 & (t1 & T1) & _).
    destruct (Hk a _ _ _ H) as (D2 & B2 & (t2 & T2) & R2).
    repeat split; try congruence.
    exists (t1 ++ t2). rewrite T2, T1. now rewrite app_assoc.
  - injection H as <- <-. exact (Hm _ _ _ E).
Qed.

Lemma tame_create_index (W : World) (c : string) (k : index_key) :
  indexing_fails_softly W -> tame (create_index W c k).
Proof.
  intros (Hci & _) s r s'. unfold create_index. unfold_monad. cbn.
  destruct (w_create_index W (List.length (trace s)) c k) as [e|] eqn:E;
    intros H; injection H as <- <-; cbn; repeat split; eauto.
Qed.

Lemma tame_find_one (W : World) (c : string) :
  indexing_fails_softly W -> tame (find_one W c).
Proof.
  intros (_ & Hfo) s r s'. unfold find_one. unfold_monad. cbn.
  destruct (w_find_one W (List.length (trace s)) c) as [e|] eqn:E;
    intros H; injection H as <- <-; cbn; repeat split; eauto.
Qed.

(** Whatever fails inside, the builder is done with the collection and
    returns normally. *)
Lemma index_collection_returns (W : World) (c : string) (s : state) :
  indexing_fails_softly W ->
  exists s', index_collection W c s = (Ok tt, s') /\
             docs s' = docs s /\ db s' = db s /\
             exists t, trace s' = trace s ++ t.
Proof.
  intros Hsoft. unfold index_collection, try_except, try_excepts.
  match goal with |- context [let (_, _) := ?body s in _] =>
    assert (Hbody : tame body);
      [|destruct (body s) as [[[]|e] s1] eqn:E;
        destruct (Hbody _ _ _ E) as (D & B & (t & T) & R)]
  end.
  - repeat match goal with
           | |- tame (bind _ _) => apply tame_bind; [|intros ?]
           | |- tame (if ?b then _ else _) => destruct b
           end;
      auto using tame_ret, tame_log, tame_create_index, tame_find_one.
  - eauto 10.
  - cbn. rewrite R. unfold log. cbn.
    eexists. split; [reflexivity|]. cbn.
    repeat split; auto. exists (t ++ [EReport (MsgIndexError c e)]).
    rewrite T. now rewrite app_assoc.
Qed.

(** When nothing fails for the collection, the calls are the three
    provenance indexes, the probe, and the business indexes the probed
    document calls for. *)
Lemma index_collection_succeeds (W : World) (c : string) (s : state) :
  indexing_succeeds W c ->
  exists s', index_collection W c s = (Ok tt, s') /\
    trace s' = trace s ++ index_events c (probe (docs s) c) ++
               [EReport (MsgIndexesCreated c)].
Proof.
  intros (Hci & Hfo).
  unfold index_collection, create_index, find_one, index_events.
  rewrite <- !sample_has_present.
  unfold_monad.
  repeat (first [rewrite Hci | rewrite Hfo]; cbn).
  fold (probe (docs s) c).
  destruct (sample_has (probe (docs s) c) "factura_num");
    destruct (sample_has (probe (docs s) c) "fecha_hora");
    cbn; repeat (rewrite Hci; cbn);
    (eexists; split; [reflexivity|]); cbn;
    rewrite <- ?app_assoc; reflexivity.
Qed.

Lemma index_collections_spec (W : World) (cs : list string) :
  indexing_fails_softly W ->
  forall s, exists s',
    index_collections W cs s = (Ok tt, s') /\
    docs s' = docs s /\
    (exists t, trace s' = trace s ++ t) /\
    forall c, In c cs -> indexing_succeeds W c ->
      exists pre post,
        trace s' = pre ++ index_events c (probe (docs s) c) ++
                   [EReport (MsgIndexesCreated c)] ++ post.
Proof.
  intros Hsoft.
  induction cs as [|c0 cs IH]; intros s.
  - exists s. cbn. repeat split; auto.
    + exists []. now rewrite app_nil_r.
    + intros c [].
  - destruct (index_collection_returns W c0 s Hsoft)
      as (s1 & H1 & D1 & _ & (t1 & T1)).
    destruct (IH s1) as (s' & H' & D' & (t' & T') & Hall).
    exists s'. cbn [index_collections]. unfold bind. rewrite H1.
    split; [exact H'|]. split; [congruence|].
    split; [exists (t1 ++ t'); rewrite T', T1; now rewrite app_assoc|].
    intros c [<- | Hin] Hsucc.
    + destruct (index_collection_succeeds W c0 s Hsucc) as (s1' & H1' & T1').
      assert (s1' = s1) by congruence. subst s1'.
      exists (trace s), t'. rewrite T', T1'.
      now rewrite <- !app_assoc.
    + rewrite <- D1. now apply Hall.
Qed.




(** The failure at [bad] is reported and [good] is indexed all the same. *)
Example indexes_after_a_failure :
  let W := Samples.flaky_world Samples.small_archive in
  skipn 3 (trace (snd (create_indexes W ["bad"; "good"]
                         (Samples.ready W Samples.small_archive)))) =
  [ECreateIndex "bad" (Single "_source_file");
   EReport (MsgIndexError "bad" OperationFailure);
   ECreateIndex "good" (Single "_source_file");
   ECreateIndex "good" (Single "_source_folder");
   ECreateIndex "good" (Compound [("_source_folder", 1); ("_source_file", 1)]);
   EFindOne "good";
   ECreateIndex "good" (Single "factura_num");
   EReport (MsgIndexesCreated "good")].
Proof. reflexivity. Qed.

(** ** Partition names and collection names *)

Lemma lower_char_not_upper (c : ascii) :
  is_upper c = false -> lower_char c = c.
Proof. unfold lower_char, is_upper. now intros ->. Qed.

Lemma is_ascii_replace (s : string) :
  is_ascii s = true -> is_ascii (replace " " "_" s) = true.
Proof.
  induction s as [|c s IH]; [reflexivity|].
  unfold is_ascii, replace. cbn [string_forall map_string]. intros H.
  apply andb_true_iff in H. destruct H as (Hc & Hs).
  apply andb_true_iff. split; [|exact (IH Hs)].
  unfold replace_char. now destruct (Ascii.eqb c " ").
Qed.

(** On an ASCII name the collection name is computed character by
    character. *)
Lemma collection_name_ascii (W : World) (s : string) :
  is_ascii s = true ->
  collection_name_of W s = map_string canonical_of_char s.
Proof.
  intros H. unfold collection_name_of, lower.
  rewrite (is_ascii_replace s H). unfold replace. clear H.
  induction s as [|c s IH]; [reflexivity|]. cbn [map_string].
  now rewrite IH.
Qed.

Lemma all_chars_complete (c : ascii) : In c all_chars.
Proof.
  unfold all_chars. rewrite <- (ascii_nat_embedding c).
  apply in_map, in_seq. pose proof (nat_ascii_bounded c). lia.
Qed.

Lemma alike_char_table :
  forallb (fun c =>
    forallb (fun d =>
      Bool.eqb (Ascii.eqb (canonical_of_char c) (canonical_of_char d))
               (alike_char c d)) all_chars) all_chars = true.
Proof. vm_compute. reflexivity. Qed.

Lemma alike_char_spec (c d : ascii) :
  canonical_of_char c = canonical_of_char d <-> alike_char c d = true.
Proof.
  pose proof alike_char_table as H.
  rewrite forallb_forall in H. specialize (H c (all_chars_complete c)).
  rewrite forallb_forall in H. specialize (H d (all_chars_complete d)).
  apply Bool.eqb_prop in H. rewrite <- H. symmetry. apply Ascii.eqb_eq.
Qed.

Lemma alike_spec (a b : string) :
  map_string canonical_of_char a = map_string canonical_of_char b <->
  alike a b = true.
Proof.
  revert b. induction a as [|c a IH]; intros [|d b]; cbn;
    try (split; [reflexivity|reflexivity]);
    try (split; discriminate).
  rewrite andb_true_iff, <- IH, <- alike_char_spec.
  split; [intros H; injection H as H1 H2; auto|intros (-> & ->); reflexivity].
Qed.

(** C2, as the code has it.  Two partition names made of ASCII characters
    get the same collection name exactly when they have the same length
    and are alike character by character: equal, the two cases of one
    letter, or a space against an underscore.  And for any two partition
    names, ASCII or not, that get different collection names,
    [process_folder] for one of them inserts nothing into the collection
    of the other. *)
Theorem same_collection_iff_alike (W : World) (a b : string)
    (file_list : list string) (batch_size : Z) (s : state) :
  (is_ascii a = true -> is_ascii b = true ->
   (collection_name_of W a = collection_name_of W b <-> alike a b = true)) /\
  (collection_name_of W a <> collection_name_of W b ->
   Forall (fun e => ~ inserts_into (collection_name_of W b) e)
     (since s (snd (process_folder W a file_list batch_size s)))).
Proof.
  split.
  - intros Ha Hb.
    rewrite (collection_name_ascii W a Ha), (collection_name_ascii W b Hb).
    apply alike_spec.
  - intros Hc.
    destruct (process_folder W a file_list batch_size s) as [r s'] eqn:Hrun.
    destruct (process_folder_spec _ _ _ _ _ _ _ Hrun) as (bs & Ht & _).
    cbn [snd]. unfold since. rewrite Ht.
    rewrite skipn_app, skipn_all, Nat.sub_diag. cbn [skipn app].
    apply Forall_forall. intros e He.
    apply in_map_iff in He. destruct He as (x & <- & _). exact Hc.
Qed.

(** [Ventas 2024] and [Compras 2024] are not alike, their collections
    differ, and loading the first sends nothing to the second. *)
Lemma same_collection_iff_alike_witness :
  alike "Ventas 2024" "Compras 2024" = false /\
  collection_name_of (Samples.world Samples.small_archive) "Ventas 2024" <>
  collection_name_of (Samples.world Samples.small_archive) "Compras 2024" /\
  Forall (fun e =>
            ~ inserts_into
                (collection_name_of (Samples.world Samples.small_archive)
                   "Compras 2024") e)
    (since (Samples.ready (Samples.world Samples.small_archive)
              Samples.small_archive)
       (snd (process_folder (Samples.world Samples.small_archive)
               "Ventas 2024" Samples.small_files 2
               (Samples.ready (Samples.world Samples.small_archive)
                  Samples.small_archive)))).
Proof.
  destruct (same_collection_iff_alike
              (Samples.world Samples.small_archive)
              "Ventas 2024" "Compras 2024" Samples.small_files 2
              (Samples.ready (Samples.world Samples.small_archive)
                 Samples.small_archive)) as (Hiff & Hapart).
  assert (Hno : alike "Ventas 2024" "Compras 2024" = false)
    by reflexivity.
  assert (Hne : collection_name_of (Samples.world Samples.small_archive)
                  "Ventas 2024" <>
                collection_name_of (Samples.world Samples.small_archive)
                  "Compras 2024").
  { intros H. apply (Hiff eq_refl eq_refl) in H. congruence. }
  split; [exact Hno|]. split; [exact Hne|]. exact (Hapart Hne).
Defined.

(** Names that differ in case and in space against underscore are alike;
    names with capitals that differ in a letter are not. *)
Example alike_names :
  alike "Ventas 2024" "ventas_2024" = true /\
  alike "Ventas 2024" "Ventas 2025" = false /\
  alike "Ventas" "Ventas " = false.
Proof. repeat split. Qed.

(** C2, as stated, fails: the archive has the partitions [Ventas 2024] and
    [ventas_2024], both are loaded into the collection [ventas_2024], which
    ends up with documents of the two. *)
Lemma distinct_partitions_share_collection :
  let W := Samples.world Samples.small_archive in
  let final := snd (main W (Some "mongodb+srv://cluster0") (init_state W)) in
  fmap_keys (fst (analyze_zip_structure W (init_state W))) =
    Some ["Ventas 2024"; "ventas_2024"; "root"] /\
  "Ventas 2024" <> "ventas_2024" /\
  collection_name_of W "Ventas 2024" = collection_name_of W "ventas_2024" /\
  option_map (map (Dict.get "_source_folder"))
    (Dict.get "ventas_2024" (docs final)) =
    Some [Some (JStr "Ventas 2024"); Some (JStr "Ventas 2024");
          Some (JStr "Ventas 2024"); Some (JStr "ventas_2024")].
Proof.
  cbv zeta. split; [reflexivity|]. split; [discriminate|].
  split; reflexivity.
Qed.


(** ** The archive listing *)

Lemma append_to_same (k x : string) (d : dict (list string)) :
  Dict.get k (append_to k x d) =
  Some (match Dict.get k d with Some l => l | None => [] end ++ [x]).
Proof.
  unfold append_to. destruct (Dict.get k d); now rewrite dict_get_set_same.
Qed.

Lemma append_to_other (k k' x : string) (d : dict (list string)) :
  k <> k' -> Dict.get k' (append_to k x d) = Dict.get k' d.
Proof.
  intros H. unfold append_to.
  destruct (Dict.get k d); now rewrite dict_get_set_other.
Qed.

Lemma classify_unfold (d : dict (list string)) (p : string) :
  classify d p =
  if is_json_entry p then append_to (partition_of p) p d else d.
Proof.
  unfold classify, is_json_entry, partition_of.
  destruct (andb _ _); [|reflexivity].
  cbv zeta. now destruct (Nat.ltb _ _).
Qed.

(** The fold of the listing loop, for any starting mapping. *)
Lemma listing_get (names : list string) (k : string) :
  forall d,
    Dict.get k (fold_left classify names d) =
    match entries_of names k with
    | [] => Dict.get k d
    | l => Some (match Dict.get k d with Some l0 => l0 | None => [] end ++ l)
    end.
Proof.
  induction names as [|p names IH]; intros d; [reflexivity|].
  cbn [fold_left]. rewrite IH. unfold entries_of. cbn [filter].
  fold (entries_of names k).
  rewrite classify_unfold.
  destruct (is_json_entry p); cbn [andb]; [|reflexivity].
  destruct (String.eqb_spec (partition_of p) k) as [->|Hne].
  - rewrite append_to_same.
    destruct (entries_of names k); [reflexivity|].
    now rewrite <- app_assoc.
  - now rewrite (append_to_other _ _ _ _ Hne).
Qed.

Lemma analyze_zip_structure_listing (W : World) (a : archive) (s : state) :
  w_zip W = Ok a ->
  fst (analyze_zip_structure W s) = Ok (fold_left classify (map fst a) []).
Proof.
  intros H. unfold analyze_zip_structure. unfold_monad. now rewrite H.
Qed.

(** X1. Listing an archive that can be read gives, under each partition
    name, exactly the data entries filed under it, in archive order; a name
    under which no data entry is filed is not a key of the listing. *)
Theorem listing_groups_entries (W : World) (a : archive) (s : state)
    (k : string) :
  w_zip W = Ok a ->
  exists fs,
    fst (analyze_zip_structure W s) = Ok fs /\
    Dict.get k fs =
      match entries_of (map fst a) k with
      | [] => None
      | l => Some l
      end.
Proof.
  intros H. eexists. split; [exact (analyze_zip_structure_listing W a s H)|].
  rewrite listing_get. cbn [Dict.get].
  now destruct (entries_of (map fst a) k).
Qed.

Lemma dict_get_none_keys {V} (k : string) (d : dict V) :
  Dict.get k d = None -> ~ In k (Dict.keys d).
Proof.
  induction d as [|[k' v] d IH]; cbn; [tauto|].
  destruct (String.eqb_spec k k'); [discriminate|].
  intros H [E|Hin]; [congruence|]. now apply IH.
Qed.

Lemma dict_get_in {V} (k : string) (v : V) (d : dict V) :
  Dict.get k d = Some v -> In (k, v) d.
Proof.
  induction d as [|[k' v'] d IH]; cbn; [discriminate|].
  destruct (String.eqb_spec k k') as [->|].
  - intros H. injection H as ->. now left.
  - intros H. right. now apply IH.
Qed.

Lemma dict_keys_set {V} (k : string) (v : V) (d : dict V) :
  Dict.keys (Dict.set k v d) =
  match Dict.get k d with
  | Some _ => Dict.keys d
  | None => Dict.keys d ++ [k]
  end.
Proof.
  induction d as [|[k' v'] d IH]; cbn; [reflexivity|].
  destruct (String.eqb_spec k k') as [->|]; cbn; [reflexivity|].
  unfold Dict.keys in IH. rewrite IH. now destruct (Dict.get k d).
Qed.

Lemma dict_set_nodup {V} (k : string) (v : V) (d : dict V) :
  NoDup (Dict.keys d) -> NoDup (Dict.keys (Dict.set k v d)).
Proof.
  intros H. rewrite dict_keys_set.
  destruct (Dict.get k d) eqn:E; [exact H|].
  apply NoDup_app; [exact H|repeat constructor; intros []|].
  intros x Hx [<-|[]]. now apply (dict_get_none_keys _ _ E).
Qed.

Lemma dict_set_forall {V} (P : string * V -> Prop) (k : string) (v : V)
    (d : dict V) :
  P (k, v) -> Forall P d -> Forall P (Dict.set k v d).
Proof.
  intros Hv. induction 1 as [|[k' v'] d Hx Hd IH]; cbn.
  - now constructor.
  - destruct (String.eqb k k'); constructor; auto.
Qed.

Lemma append_to_shape (k x : string) (d : dict (list string)) :
  NoDup (Dict.keys d) /\ Forall (fun kv => snd kv <> []) d ->
  NoDup (Dict.keys (append_to k x d)) /\
  Forall (fun kv => snd kv <> []) (append_to k x d).
Proof.
  intros (Hk & Hv). unfold append_to.
  destruct (Dict.get k d) as [l|]; split;
    try (now apply dict_set_nodup);
    apply dict_set_forall; auto; cbn; try discriminate.
  now destruct l.
Qed.

(** X2. In the listing of an archive the partition names are pairwise
    distinct and no partition is empty. *)
Theorem listing_shape (W : World) (a : archive) (s : state) :
  w_zip W = Ok a ->
  exists fs,
    fst (analyze_zip_structure W s) = Ok fs /\
    NoDup (Dict.keys fs) /\
    Forall (fun kv => snd kv <> []) fs.
Proof.
  intros H. eexists. split; [exact (analyze_zip_structure_listing W a s H)|].
  assert (G : forall names d,
             NoDup (Dict.keys d) /\ Forall (fun kv => snd kv <> []) d ->
             NoDup (Dict.keys (fold_left classify names d)) /\
             Forall (fun kv => snd kv <> [])
               (fold_left classify names d)).
  { induction names as [|p names IH]; intros d Hd; [exact Hd|].
    cbn [fold_left]. apply IH. rewrite classify_unfold.
    destruct (is_json_entry p); [now apply append_to_shape|exact Hd]. }
  apply G. split; constructor.
Qed.

(** Python's [split]: the first part stops before the first separator. *)
Lemma split_first (sep : ascii) (s : string) :
  exists h t,
    split sep s = h :: t /\
    string_forall (fun c => negb (Ascii.eqb c sep)) h = true /\
    match t with
    | [] => s = h
    | _ :: _ => exists rest, s = (h ++ String sep rest)%string
    end.
Proof.
  induction s as [|c s (h & t & Hs & Hh & Ht)]; cbn [split].
  - exists EmptyString, []. auto.
  - destruct (Ascii.eqb_spec c sep) as [->|Hne].
    + exists EmptyString, (split sep s). split; [reflexivity|].
      split; [reflexivity|]. rewrite Hs. exists s. reflexivity.
    + rewrite Hs. exists (String c h), t.
      split; [reflexivity|]. split.
      * cbn. rewrite Hh. apply Ascii.eqb_neq in Hne. now rewrite Hne.
      * destruct t; [now subst|]. destruct Ht as (rest & ->).
        exists rest. reflexivity.
Qed.

Lemma partition_of_prefix (p : string) :
  (exists rest, p = (partition_of p ++ "/" ++ rest)%string /\
                no_slash (partition_of p) = true) \/
  (partition_of p = "root" /\ no_slash p = true).
Proof.
  unfold partition_of. cbv zeta.
  destruct (split_first "/" p) as (h & t & -> & Hh & Ht).
  destruct t as [|x t]; cbn.
  - right. now subst.
  - left. destruct Ht as (rest & ->). exists rest. auto.
Qed.

Lemma entries_of_in (names : list string) (k p : string) :
  In p (entries_of names k) ->
  In p names /\ is_json_entry p = true /\ partition_of p = k.
Proof.
  unfold entries_of. rewrite filter_In. intros (Hin & H).
  apply andb_true_iff in H. destruct H as (Hj & Hk).
  apply String.eqb_eq in Hk. auto.
Qed.

(** X3. Every entry listed under a partition is a member of the archive
    whose name ends in [.json], and either its name is the partition name
    followed by a slash, or the partition is [root] and the name has no
    slash at all. *)
Theorem listed_entry_lies_under_its_partition (W : World) (a : archive)
    (s : state) (fs : dict (list string)) (k p : string)
    (file_list : list string) :
  w_zip W = Ok a ->
  fst (analyze_zip_structure W s) = Ok fs ->
  Dict.get k fs = Some file_list -> In p file_list ->
  In p (map fst a) /\ endswith p ".json" = true /\
  ((exists rest, p = (k ++ "/" ++ rest)%string /\ no_slash k = true) \/
   (k = "root" /\ no_slash p = true)).
Proof.
  intros Hz Hfs Hget Hin.
  rewrite (analyze_zip_structure_listing W a s Hz) in Hfs.
  injection Hfs as <-. rewrite listing_get in Hget. cbn [Dict.get] in Hget.
  assert (Hp : In p (entries_of (map fst a) k)).
  { destruct (entries_of (map fst a) k); [discriminate|].
    cbn in Hget. now injection Hget as <-. }
  destruct (entries_of_in _ _ _ Hp) as (Hmem & Hjson & <-).
  split; [exact Hmem|]. split.
  - unfold is_json_entry in Hjson. now apply andb_true_iff in Hjson.
  - apply partition_of_prefix.
Qed.

Lemma listing_groups_entries_witness :
  exists fs,
    fst (analyze_zip_structure (Samples.world Samples.small_archive)
           (init_state (Samples.world Samples.small_archive))) = Ok fs /\
    Dict.get "Ventas 2024" fs =
      match entries_of (map fst Samples.small_archive) "Ventas 2024" with
      | [] => None
      | l => Some l
      end.
Proof.
  apply (listing_groups_entries (Samples.world Samples.small_archive)
           Samples.small_archive
           (init_state (Samples.world Samples.small_archive))
           "Ventas 2024").
  reflexivity.
Defined.

Lemma listing_shape_witness :
  exists fs,
    fst (analyze_zip_structure (Samples.world Samples.small_archive)
           (init_state (Samples.world Samples.small_archive))) = Ok fs /\
    NoDup (Dict.keys fs) /\
    Forall (fun kv => snd kv <> []) fs.
Proof.
  apply (listing_shape (Samples.world Samples.small_archive)
           Samples.small_archive
           (init_state (Samples.world Samples.small_archive))).
  reflexivity.
Defined.

Lemma listed_entry_lies_under_its_partition_witness :
  In "Ventas 2024/c.json" (map fst Samples.small_archive) /\
  endswith "Ventas 2024/c.json" ".json" = true /\
  ((exists rest,
      "Ventas 2024/c.json" = ("Ventas 2024" ++ "/" ++ rest)%string /\
      no_slash "Ventas 2024" = true) \/
   ("Ventas 2024" = "root" /\ no_slash "Ventas 2024/c.json" = true)).
Proof.
  apply (listed_entry_lies_under_its_partition
           (Samples.world Samples.small_archive) Samples.small_archive
           (init_state (Samples.world Samples.small_archive))
           (fold_left classify (map fst Samples.small_archive) [])
           "Ventas 2024" "Ventas 2024/c.json"
           ["Ventas 2024/a.json"; "Ventas 2024/b.json";
            "Ventas 2024/c.json"; "Ventas 2024/d.json"]).
  - reflexivity.
  - reflexivity.
  - reflexivity.
  - cbn. auto.
Defined.

(** A top-level entry and an entry of a folder called [root] end up in
    the same partition. *)
Example root_partition_mixes :
  fold_left classify ["uno.json"; "root/dos.json"; "root/"; "leeme.txt"] [] =
  [("root", ["uno.json"; "root/dos.json"])].
Proof. reflexivity. Qed.

(** ** Canonical collection names *)

Lemma lower_char_canonical (c : ascii) :
  c <> " "%char -> canonical_char (lower_char c) = true.
Proof.
  intros Hc. unfold canonical_char, lower_char.
  destruct (andb (Nat.leb 65 (nat_of_ascii c)) (Nat.leb (nat_of_ascii c) 90))
    eqn:E.
  - apply andb_true_iff in E. destruct E as (E1 & E2).
    apply Nat.leb_le in E1, E2.
    assert (Hn : nat_of_ascii (ascii_of_nat (nat_of_ascii c + 32)) =
                 (nat_of_ascii c + 32)%nat)
      by (apply nat_ascii_embedding; lia).
    apply andb_true_iff. split; apply negb_true_iff.
    + unfold is_upper. rewrite Hn.
      apply andb_false_iff. right. apply Nat.leb_gt. lia.
    + apply Ascii.eqb_neq. intros H.
      apply (f_equal nat_of_ascii) in H. rewrite Hn in H. cbn in H. lia.
  - apply andb_true_iff. split; apply negb_true_iff.
    + exact E.
    + now apply Ascii.eqb_neq.
Qed.

Lemma canonical_step (c : ascii) :
  canonical_char (canonical_of_char c) = true.
Proof.
  apply lower_char_canonical. unfold replace_char.
  destruct (Ascii.eqb_spec c " "); [discriminate|assumption].
Qed.

Lemma canonical_of_char_ascii (c : ascii) :
  is_ascii_char c = true -> is_ascii_char (canonical_of_char c) = true.
Proof.
  unfold canonical_of_char, replace_char.
  destruct (Ascii.eqb c " "); [reflexivity|].
  unfold lower_char, is_ascii_char. intros Hc.
  destruct (andb (Nat.leb 65 (nat_of_ascii c)) (Nat.leb (nat_of_ascii c) 90))
    eqn:E; [|exact Hc].
  apply andb_true_iff in E. destruct E as (_ & E2). apply Nat.leb_le in E2.
  rewrite nat_ascii_embedding by lia. apply Nat.ltb_lt. lia.
Qed.

Lemma canonical_of_char_fixed (c : ascii) :
  canonical_char c = true -> canonical_of_char c = c.
Proof.
  unfold canonical_char. intros Hc. apply andb_true_iff in Hc.
  destruct Hc as (Hu & Hsp). apply negb_true_iff in Hu, Hsp.
  unfold canonical_of_char, replace_char. rewrite Hsp.
  now apply lower_char_not_upper.
Qed.

(** X4. For a partition name made of ASCII characters, the collection name
    has the same length, is made of ASCII characters, holds no letter A-Z
    and no space, and canonicalizing it again changes nothing. *)
Theorem collection_name_is_canonical (W : World) (folder_name : string) :
  is_ascii folder_name = true ->
  String.length (collection_name_of W folder_name) =
    String.length folder_name /\
  is_ascii (collection_name_of W folder_name) = true /\
  string_forall canonical_char (collection_name_of W folder_name) = true /\
  collection_name_of W (collection_name_of W folder_name) =
    collection_name_of W folder_name.
Proof.
  intros Hascii. rewrite (collection_name_ascii W folder_name Hascii).
  assert (H : String.length (map_string canonical_of_char folder_name) =
              String.length folder_name /\
              is_ascii (map_string canonical_of_char folder_name) = true /\
              string_forall canonical_char
                (map_string canonical_of_char folder_name) = true /\
              map_string canonical_of_char
                (map_string canonical_of_char folder_name) =
              map_string canonical_of_char folder_name).
  { clear W. induction folder_name as [|c s IH]; [repeat split|].
    unfold is_ascii in Hascii. cbn [string_forall] in Hascii.
    apply andb_true_iff in Hascii. destruct Hascii as (Hc & Hs).
    destruct (IH Hs) as (IH1 & IH2 & IH3 & IH4).
    unfold is_ascii in *.
    cbn [map_string String.length string_forall].
    rewrite IH1, IH2, IH3, IH4, canonical_step,
      (canonical_of_char_ascii c Hc),
      (canonical_of_char_fixed _ (canonical_step c)).
    auto. }
  destruct H as (H1 & H2 & H3 & H4).
  split; [exact H1|]. split; [exact H2|]. split; [exact H3|].
  rewrite (collection_name_ascii W _ H2). exact H4.
Qed.

Lemma collection_name_is_canonical_witness :
  String.length
    (collection_name_of (Samples.world Samples.small_archive)
       "Ventas Enero 2024") = String.length "Ventas Enero 2024" /\
  is_ascii (collection_name_of (Samples.world Samples.small_archive)
              "Ventas Enero 2024") = true /\
  string_forall canonical_char
    (collection_name_of (Samples.world Samples.small_archive)
       "Ventas Enero 2024") = true /\
  collection_name_of (Samples.world Samples.small_archive)
    (collection_name_of (Samples.world Samples.small_archive)
       "Ventas Enero 2024") =
  collection_name_of (Samples.world Samples.small_archive)
    "Ventas Enero 2024".
Proof.
  apply (collection_name_is_canonical
           (Samples.world Samples.small_archive) "Ventas Enero 2024").
  reflexivity.
Defined.

Example canonical_name_example :
  collection_name_of (Samples.world Samples.small_archive)
    "Ventas Enero 2024" = "ventas_enero_2024".
Proof. reflexivity. Qed.

(** ** Accounting of one partition *)

(** X5. When [process_folder] returns, the documents it handed to the
    Bulk Writer, batch after batch, are the records of the partition in
    entry order, none twice and none missing; [loaded_files] is their
    number and [failed_files] counts the remaining entries. *)
Theorem dispatched_documents_are_the_records (W : World)
    (folder_name : string) (file_list : list string) (batch_size : Z)
    (s : state) (st : Stats) :
  fst (process_folder W folder_name file_list batch_size s) = Ok st ->
  List.concat (dispatched s (snd (process_folder W folder_name file_list
                                    batch_size s))) =
    records (zip_file s) folder_name file_list /\
  loaded_files st =
    Z.of_nat (List.length (records (zip_file s) folder_name file_list)) /\
  failed_files st =
    Z.of_nat (List.length file_list) -
    Z.of_nat (List.length (records (zip_file s) folder_name file_list)).
Proof.
  destruct (process_folder W folder_name file_list batch_size s)
    as [r s'] eqn:Hrun.
  cbn [fst snd]. intros ->.
  destruct (process_folder_spec _ _ _ _ _ _ _ Hrun)
    as (bs & Ht & _ & _ & _ & _ & Hok).
  destruct Hok as (_ & Htot & Hsum & _ & Hloaded & Hcat & _).
  rewrite (dispatched_app _ _ _ Ht), batches_of_inserts.
  split; [exact Hcat|]. split; [exact Hloaded|]. lia.
Qed.

Lemma dispatched_documents_are_the_records_witness :
  List.concat
    (dispatched (Samples.ready (Samples.world Samples.small_archive)
                   Samples.small_archive)
       (snd (process_folder (Samples.world Samples.small_archive)
               "Ventas 2024" Samples.small_files 2
               (Samples.ready (Samples.world Samples.small_archive)
                  Samples.small_archive)))) =
    records (Some Samples.small_archive) "Ventas 2024" Samples.small_files /\
  3 = Z.of_nat (List.length (records (Some Samples.small_archive)
                               "Ventas 2024" Samples.small_files)) /\
  2 = Z.of_nat (List.length Samples.small_files) -
      Z.of_nat (List.length (records (Some Samples.small_archive)
                               "Ventas 2024" Samples.small_files)).
Proof.
  apply (dispatched_documents_are_the_records
           (Samples.world Samples.small_archive) "Ventas 2024"
           Samples.small_files 2
           (Samples.ready (Samples.world Samples.small_archive)
              Samples.small_archive)
           {| total_files := 5; loaded_files := 3; failed_files := 2;
              batch_count := 2 |}).
  reflexivity.
Defined.

Lemma ceil_div (n k r : Z) :
  0 < n -> 0 <= r < n ->
  (n * k + r + n - 1) / n = k + (if r =? 0 then 0 else 1).
Proof.
  intros Hn Hr. destruct (Z.eqb_spec r 0) as [->|Hne].
  - symmetry. apply (Z.div_unique_pos _ _ _ (n - 1)); lia.
  - symmetry. apply (Z.div_unique_pos _ _ _ (r - 1)); lia.
Qed.

(** X6. When [process_folder] returns with a capacity greater than zero,
    the number of batches is the number of loaded documents divided by the
    capacity, rounded up. *)
Theorem batch_count_is_rounded_up (W : World) (folder_name : string)
    (file_list : list string) (batch_size : Z) (s : state) (st : Stats) :
  0 < batch_size ->
  fst (process_folder W folder_name file_list batch_size s) = Ok st ->
  batch_count st = (loaded_files st + batch_size - 1) / batch_size.
Proof.
  intros Hn.
  destruct (process_folder W folder_name file_list batch_size s)
    as [r s'] eqn:Hrun.
  cbn [fst]. intros ->.
  destruct (process_folder_spec _ _ _ _ _ _ _ Hrun)
    as (bs & _ & _ & _ & _ & _ & Hok).
  destruct Hok as (_ & _ & _ & Hcount & Hloaded & Hcat & Hshape).
  destruct (Hshape Hn) as (full & pending & Hfull & Hpend & ->).
  destruct (sizes_full batch_size full Hfull) as (_ & Hlen).
  rewrite <- Hcat in Hloaded.
  rewrite concat_app, length_app, Nat2Z.inj_add, Hlen in Hloaded.
  rewrite length_app, Nat2Z.inj_add in Hcount.
  rewrite Hcount, Hloaded.
  destruct pending as [|j pending]; cbn [List.concat List.length] in *.
  - replace (batch_size * Z.of_nat (List.length full) + Z.of_nat 0 +
             batch_size - 1)
      with (batch_size * Z.of_nat (List.length full) + 0 + batch_size - 1)
      by lia.
    rewrite ceil_div by lia. reflexivity.
  - rewrite app_nil_r. cbn [List.length].
    rewrite ceil_div by lia.
    destruct (Z.eqb_spec (Z.of_nat (S (List.length pending))) 0); lia.
Qed.

Lemma batch_count_is_rounded_up_witness :
  0 < 2 /\
  fst (process_folder (Samples.world Samples.small_archive) "Ventas 2024"
         Samples.small_files 2
         (Samples.ready (Samples.world Samples.small_archive)
            Samples.small_archive)) =
    Ok {| total_files := 5; loaded_files := 3; failed_files := 2;
          batch_count := 2 |} /\
  2 = (3 + 2 - 1) / 2.
Proof.
  split; [lia|]. split; [reflexivity|].
  apply (batch_count_is_rounded_up
           (Samples.world Samples.small_archive) "Ventas 2024"
           Samples.small_files 2
           (Samples.ready (Samples.world Samples.small_archive)
              Samples.small_archive)
           {| total_files := 5; loaded_files := 3; failed_files := 2;
              batch_count := 2 |}).
  - lia.
  - reflexivity.
Defined.

(** ** Degenerate capacities and aborted partitions *)

Lemma process_files_degenerate (W : World) (f c : string) (n : Z)
    (files : list string) :
  n <= 0 ->
  forall st s r s',
    process_files W f c n files [] st s = (r, s') ->
    exists bs,
      trace s' = trace s ++ map (EInsertMany c) bs /\
      Forall (fun b => List.length b = 1%nat) bs /\
      match r with
      | Ok (bd', st') =>
          bd' = [] /\
          batch_count st' - batch_count st =
          loaded_files st' - loaded_files st
      | Raise _ => True
      end.
Proof.
  intros Hn.
  induction files as [|p rest IH]; intros st s r s' Hrun.
  - rewrite process_files_nil in Hrun. injection Hrun as <- <-.
    exists []. cbn. rewrite app_nil_r. repeat split; auto; lia.
  - rewrite process_files_cons in Hrun.
    destruct (decode (zip_file s) p) as [v|e].
    2:{ injection Hrun as <- <-. exists []. cbn. rewrite app_nil_r. auto. }
    destruct (truthy v).
    2:{ destruct (IH _ _ _ _ Hrun) as (bs & Ht & Hone & Hok).
        exists bs. split; [exact Ht|]. split; [exact Hone|].
        destruct r as [[bd' st']|e]; [|exact I]. cbn in Hok. exact Hok. }
    destruct (stamp f p v) as [j|e].
    2:{ injection Hrun as <- <-. exists []. cbn. rewrite app_nil_r. auto. }
    cbn [app List.length] in Hrun.
    destruct (Z.of_nat 1 >=? n) eqn:Hge;
      [|exfalso; rewrite Z.geb_leb in Hge; apply Z.leb_gt in Hge; lia].
    destruct (execute_batch W c [j] s) as [[[]|e] s1] eqn:Hex;
      destruct (execute_batch_effect _ _ _ _ _ _ Hex) as (Ht1 & _).
    + destruct (IH _ _ _ _ Hrun) as (bs & Ht & Hone & Hok).
      exists ([j] :: bs). split; [rewrite Ht, Ht1, <- app_assoc; reflexivity|].
      split; [constructor; auto|].
      destruct r as [[bd' st']|e]; [|exact I].
      cbn in Hok. destruct Hok as (-> & Hc). split; [reflexivity|lia].
    + injection Hrun as <- <-. exists [[j]].
      split; [exact Ht1|]. split; [repeat constructor|exact I].
Qed.

(** X7. With a capacity of zero or less every loaded document is sent in
    a batch of its own: all batches hold one record, and when
    [process_folder] returns the batch count equals the loaded count. *)
Theorem nonpositive_capacity_sends_singletons (W : World)
    (folder_name : string) (file_list : list string) (batch_size : Z)
    (s : state) :
  batch_size <= 0 ->
  Forall (fun b => List.length b = 1%nat)
    (dispatched s (snd (process_folder W folder_name file_list
                          batch_size s))) /\
  forall st,
    fst (process_folder W folder_name file_list batch_size s) = Ok st ->
    batch_count st = loaded_files st.
Proof.
  intros Hn. rewrite process_folder_unfold.
  destruct (db s).
  2:{ cbn [fst snd]. unfold dispatched.
      rewrite skipn_all. split; [constructor|discriminate]. }
  destruct (valid_collection_name _).
  2:{ cbn [fst snd]. unfold dispatched.
      rewrite skipn_all. split; [constructor|discriminate]. }
  match goal with |- context [process_files W ?f ?c ?n ?l [] ?st0 s] =>
    destruct (process_files W f c n l [] st0 s) as [r1 s1] eqn:Hloop;
      destruct (process_files_degenerate W f c n l Hn st0 s r1 s1 Hloop)
        as (bs & Ht & Hone & Hok)
  end.
  destruct r1 as [[bd st1]|e]; cbn [fst snd].
  - cbn in Hok. destruct Hok as (-> & Hc). cbv beta iota. cbn [fst snd].
    rewrite (dispatched_app _ _ _ Ht), batches_of_inserts.
    split; [exact Hone|]. intros st H. injection H as <-. cbn in Hc. lia.
  - rewrite (dispatched_app _ _ _ Ht), batches_of_inserts.
    split; [exact Hone|discriminate].
Qed.

Lemma nonpositive_capacity_sends_singletons_witness :
  0 <= 0 /\
  Forall (fun b => List.length b = 1%nat)
    (dispatched (Samples.ready (Samples.world Samples.small_archive)
                   Samples.small_archive)
       (snd (process_folder (Samples.world Samples.small_archive)
               "Ventas 2024" Samples.small_files 0
               (Samples.ready (Samples.world Samples.small_archive)
                  Samples.small_archive)))) /\
  forall st,
    fst (process_folder (Samples.world Samples.small_archive)
           "Ventas 2024" Samples.small_files 0
           (Samples.ready (Samples.world Samples.small_archive)
              Samples.small_archive)) = Ok st ->
    batch_count st = loaded_files st.
Proof.
  split; [lia|].
  apply (nonpositive_capacity_sends_singletons
           (Samples.world Samples.small_archive) "Ventas 2024"
           Samples.small_files 0).
  lia.
Defined.

Lemma stamp_raises_type_error (f p : string) (v : json) (e : exn) :
  stamp f p v = Raise e -> e = TypeError.
Proof.
  unfold stamp, setitem. destruct v; intros H;
    try (injection H as <-; reflexivity); discriminate.
Qed.

Lemma decode_raises_uncaught (z : option archive) (p : string) (e : exn) :
  decode z p = Raise e -> caught_by_load_json e = false.
Proof.
  unfold decode. destruct z as [a|]; [|discriminate].
  destruct (open_and_load a p) as [v|e0]; [discriminate|].
  destruct (caught_by_load_json e0) eqn:E; [discriminate|].
  intros H. now injection H as <-.
Qed.

Lemma process_files_raise (W : World) (f c : string) (n : Z)
    (files : list string) :
  store_fails_softly W ->
  forall bd st s e s',
    process_files W f c n files bd st s = (Raise e, s') ->
    caught_by_load_json e = false.
Proof.
  intros Hsoft.
  induction files as [|p rest IH]; intros bd st s e s' Hrun.
  - rewrite process_files_nil in Hrun. discriminate.
  - rewrite process_files_cons in Hrun.
    destruct (decode (zip_file s) p) as [v|e0] eqn:Hd.
    2:{ injection Hrun as <- <-. now apply decode_raises_uncaught in Hd. }
    destruct (truthy v); [|now apply IH in Hrun].
    destruct (stamp f p v) as [j|e0] eqn:Hs.
    2:{ injection Hrun as <- <-.
        now rewrite (stamp_raises_type_error _ _ _ _ Hs). }
    destruct (Z.of_nat (List.length (bd ++ [j])) >=? n);
      [|now apply IH in Hrun].
    destruct (execute_batch_returns W c (bd ++ [j]) s) as (s1 & Hex);
      [intros e0; apply Hsoft|].
    rewrite Hex in Hrun. now apply IH in Hrun.
Qed.

(** X8. With a store whose failures are ordinary exceptions and a capacity
    greater than zero, a [process_folder] that raises has sent full
    batches only: the records waiting in the unfinished batch are never
    sent.  The exception is never one of the three that [load_json_fast]
    handles. *)
Theorem aborted_partition_drops_pending (W : World) (folder_name : string)
    (file_list : list string) (batch_size : Z) (s : state) (e : exn) :
  store_fails_softly W -> 0 < batch_size ->
  fst (process_folder W folder_name file_list batch_size s) = Raise e ->
  Forall (fun b => Z.of_nat (List.length b) = batch_size)
    (dispatched s (snd (process_folder W folder_name file_list
                          batch_size s))) /\
  caught_by_load_json e = false.
Proof.
  intros Hsoft Hn. rewrite process_folder_unfold.
  destruct (db s).
  2:{ cbn [fst snd]. intros H. injection H as <-.
      unfold dispatched. rewrite skipn_all. split; [constructor|reflexivity]. }
  destruct (valid_collection_name _).
  2:{ cbn [fst snd]. intros H. injection H as <-.
      unfold dispatched. rewrite skipn_all. split; [constructor|reflexivity]. }
  match goal with |- context [process_files W ?f ?c ?n ?l [] ?st0 s] =>
    destruct (process_files W f c n l [] st0 s) as [r1 s1] eqn:Hloop;
      destruct (process_files_spec W f c n l l (incl_refl l) _ _ _ _ _ Hloop)
        as (bs & Ht & _ & Hfull & _)
  end.
  destruct r1 as [[bd st1]|e1]; cbn [fst snd].
  - destruct bd as [|j bd]; [discriminate|].
    destruct (execute_batch_returns W (collection_name_of W folder_name)
                (j :: bd) s1) as (s2 & Hex); [intros e0; apply Hsoft|].
    rewrite Hex. discriminate.
  - intros H. injection H as ->.
    rewrite (dispatched_app _ _ _ Ht), batches_of_inserts.
    split; [apply Hfull; cbn; lia|].
    eapply process_files_raise; eauto.
Qed.

Lemma aborted_partition_drops_pending_witness :
  fst (process_folder (Samples.world Cases.abort_archive) "f"
         Cases.abort_files 2
         (Samples.ready (Samples.world Cases.abort_archive)
            Cases.abort_archive)) = Raise TypeError /\
  sizes (dispatched (Samples.ready (Samples.world Cases.abort_archive)
                       Cases.abort_archive)
           (snd (process_folder (Samples.world Cases.abort_archive) "f"
                   Cases.abort_files 2
                   (Samples.ready (Samples.world Cases.abort_archive)
                      Cases.abort_archive)))) = [2] /\
  (Forall (fun b => Z.of_nat (List.length b) = 2)
     (dispatched (Samples.ready (Samples.world Cases.abort_archive)
                    Cases.abort_archive)
        (snd (process_folder (Samples.world Cases.abort_archive) "f"
                Cases.abort_files 2
                (Samples.ready (Samples.world Cases.abort_archive)
                   Cases.abort_archive)))) /\
   caught_by_load_json TypeError = false).
Proof.
  split; [reflexivity|]. split; [reflexivity|].
  apply (aborted_partition_drops_pending
           (Samples.world Cases.abort_archive) "f" Cases.abort_files 2
           (Samples.ready (Samples.world Cases.abort_archive)
              Cases.abort_archive) TypeError).
  - intros t c b e. cbn. discriminate.
  - lia.
  - reflexivity.
Defined.

(** ** What reaches the store *)

Lemma as_documents_some (b : list json) (ds : list document) :
  as_documents b = Some ds -> ds = documents_of b.
Proof.
  revert ds. induction b as [|j b IH]; cbn; intros ds H.
  - now injection H as <-.
  - destruct j; try discriminate.
    destruct (as_documents b) as [ds0|]; [|discriminate].
    injection H as <-. now rewrite (IH ds0 eq_refl).
Qed.

Lemma as_documents_objects (b : list json) :
  Forall (fun j => exists d, j = JObj d) b ->
  as_documents b = Some (documents_of b).
Proof.
  induction 1 as [|j b (d & ->) Hb IH]; cbn; [reflexivity|].
  now rewrite IH.
Qed.

Lemma drop_rejected_incl {A} (rej : list nat) (l : list A) :
  forall i, incl (drop_rejected i rej l) l.
Proof.
  induction l as [|x l IH]; intros i; cbn; [apply incl_refl|].
  destruct (existsb (Nat.eqb i) rej).
  - apply incl_tl, IH.
  - apply incl_cons; [now left|apply incl_tl, IH].
Qed.

Lemma stored_set_same (st : store) (c : string) (l : list document) :
  stored (Dict.set c l st) c = l.
Proof. unfold stored. now rewrite dict_get_set_same. Qed.

Lemma insert_by_rank_perm (x : nat * document) (l : list (nat * document)) :
  Permutation (insert_by_rank x l) (x :: l).
Proof.
  induction l as [|y l IH]; cbn; [reflexivity|].
  destruct (Nat.leb (fst x) (fst y)); [reflexivity|].
  rewrite IH. apply perm_swap.
Qed.

Lemma map_snd_combine {A B} (l1 : list A) (l2 : list B) :
  List.length l1 = List.length l2 -> map snd (combine l1 l2) = l2.
Proof.
  revert l2. induction l1 as [|x l1 IH]; intros [|y l2] H; cbn in *;
    try reflexivity; try discriminate.
  f_equal. apply IH. now injection H.
Qed.

(** Whatever the ranks, the store lays down the documents it was given. *)
Lemma arrange_perm (rank : nat -> nat) (ds : list document) :
  Permutation (arrange rank ds) ds.
Proof.
  unfold arrange.
  assert (H : forall l : list (nat * document),
             Permutation (fold_right insert_by_rank [] l) l).
  { induction l as [|x l IH]; cbn; [reflexivity|].
    rewrite insert_by_rank_perm. now constructor. }
  rewrite (Permutation_map snd (H _)).
  rewrite map_snd_combine; [reflexivity|].
  now rewrite length_map, length_seq.
Qed.

Lemma arrange_incl (rank : nat -> nat) (ds : list document) :
  incl (arrange rank ds) ds.
Proof. intros x. apply Permutation_in, arrange_perm. Qed.

(** What one [execute_batch] does to the store. *)
Lemma execute_batch_store (W : World) (c : string) (b : list json)
    (s : state) (r : result unit) (s' : state) :
  execute_batch W c b s = (r, s') ->
  (forall c', c' <> c -> Dict.get c' (docs s') = Dict.get c' (docs s)) /\
  exists ds,
    stored (docs s') c = stored (docs s) c ++ ds /\
    incl ds (documents_of b) /\
    (store_accepts_all W -> b <> [] ->
     Forall (fun j => exists d, j = JObj d) b ->
     Permutation ds (documents_of b)).
Proof.
  unfold execute_batch, insert_many. unfold_monad.
  assert (Hnone : (forall c', c' <> c ->
                     Dict.get c' (docs s) = Dict.get c' (docs s)) /\
                  stored (docs s) c = stored (docs s) c ++ [] /\
                  incl (@nil document) (documents_of b))
    by (rewrite app_nil_r; repeat split; auto; intros x []).
  destruct Hnone as (N1 & N2 & N3).
  pose proof (as_documents_some b) as Hsome.
  pose proof (as_documents_objects b) as Hobj.
  remember (as_documents b) as od eqn:Hod. clear Hod.
  pose proof (fun H : store_accepts_all W => H (List.length (trace s)) c b)
    as Hacc.
  remember (w_insert W (List.length (trace s)) c b) as resp eqn:Hresp.
  clear Hresp.
  remember (w_rank W (List.length (trace s))) as rank eqn:Hrank.
  clear Hrank.
  destruct b as [|j b'].
  { cbn. intros H. injection H as <- <-. cbn.
    split; [exact N1|]. exists []. split; [exact N2|]. split; [exact N3|].
    intros _ Hb. congruence. }
  cbn. destruct od as [ds0|].
  2:{ cbn. intros H. injection H as <- <-. cbn.
      split; [exact N1|]. exists []. split; [exact N2|]. split; [exact N3|].
      intros _ _ Hall. specialize (Hobj Hall). discriminate. }
  specialize (Hsome ds0 eq_refl). subst ds0.
  destruct resp as [|rej|e]; cbn.
  - intros H. injection H as <- <-. cbn.
    split; [intros c' Hc'; now apply dict_get_set_other|].
    exists (arrange rank (documents_of (j :: b'))). rewrite stored_set_same.
    split; [reflexivity|]. split; [apply arrange_incl|].
    intros _ _ _. apply arrange_perm.
  - intros H. injection H as <- <-. cbn.
    split; [intros c' Hc'; now apply dict_get_set_other|].
    exists (arrange rank (drop_rejected 0 rej (documents_of (j :: b')))).
    rewrite stored_set_same.
    split; [reflexivity|].
    split; [eapply incl_tran; [apply arrange_incl|apply drop_rejected_incl]|].
    intros Ha. specialize (Hacc Ha). discriminate.
  - destruct (is_BulkWriteError e); cbn;
      [|destruct (is_Exception e); cbn];
      intros H; injection H as <- <-; cbn;
      (split; [exact N1|]); exists [];
      (split; [exact N2|]); (split; [exact N3|]);
      intros Ha; specialize (Hacc Ha); discriminate.
Qed.

Lemma documents_of_app (l1 l2 : list json) :
  documents_of (l1 ++ l2) = documents_of l1 ++ documents_of l2.
Proof.
  induction l1 as [|j l1 IH]; cbn; [reflexivity|].
  destruct j; cbn; now rewrite ?IH.
Qed.

Lemma process_files_store (W : World) (f c : string) (n : Z)
    (files : list string) :
  forall bd st s r s',
    Forall (fun j => exists d, j = JObj d) bd ->
    process_files W f c n files bd st s = (r, s') ->
    exists bs ds,
      trace s' = trace s ++ map (EInsertMany c) bs /\
      (forall c', c' <> c -> Dict.get c' (docs s') = Dict.get c' (docs s)) /\
      stored (docs s') c = stored (docs s) c ++ ds /\
      incl ds (documents_of (List.concat bs)) /\
      (store_accepts_all W ->
       Permutation ds (documents_of (List.concat bs))) /\
      match r with
      | Ok (bd', _) => Forall (fun j => exists d, j = JObj d) bd'
      | Raise _ => True
      end.
Proof.
  induction files as [|p rest IH]; intros bd st s r s' Hbd Hrun.
  - rewrite process_files_nil in Hrun. injection Hrun as <- <-.
    exists [], []. cbn. rewrite !app_nil_r.
    repeat split; auto. apply incl_refl.
  - assert (Hstop : forall e, (Raise e, s) = (r, s') ->
        exists bs ds,
          trace s' = trace s ++ map (EInsertMany c) bs /\
          (forall c', c' <> c ->
             Dict.get c' (docs s') = Dict.get c' (docs s)) /\
          stored (docs s') c = stored (docs s) c ++ ds /\
          incl ds (documents_of (List.concat bs)) /\
          (store_accepts_all W ->
           Permutation ds (documents_of (List.concat bs))) /\
          match r with
          | Ok (bd', _) => Forall (fun j => exists d, j = JObj d) bd'
          | Raise _ => True
          end).
    { intros e H. injection H as <- <-. exists [], []. cbn.
      rewrite !app_nil_r. repeat split; auto. apply incl_refl. }
    rewrite process_files_cons in Hrun.
    destruct (decode (zip_file s) p) as [v|e]; [|eauto].
    destruct (truthy v); [|eauto].
    destruct (stamp f p v) as [j|e] eqn:Hs; [|eauto].
    assert (Hb : Forall (fun j => exists d, j = JObj d) (bd ++ [j])).
    { apply Forall_app. split; [exact Hbd|].
      destruct (stamp_inv _ _ _ _ Hs) as (d0 & d & _ & -> & _).
      repeat constructor. eauto. }
    destruct (Z.of_nat (List.length (bd ++ [j])) >=? n); [|eauto].
    destruct (execute_batch W c (bd ++ [j]) s) as [r1 s1] eqn:Hex.
    destruct (execute_batch_effect _ _ _ _ _ _ Hex) as (Ht1 & _).
    destruct (execute_batch_store _ _ _ _ _ _ Hex)
      as (Ho1 & ds1 & Hst1 & Hin1 & Hacc1).
    destruct r1 as [[]|e].
    + destruct (IH _ _ _ _ _ (Forall_nil _) Hrun)
        as (bs & ds & Ht & Ho & Hst & Hin & Hacc & Hok).
      exists ((bd ++ [j]) :: bs), (ds1 ++ ds).
      cbn [List.concat map]. rewrite documents_of_app.
      split; [rewrite Ht, Ht1, <- app_assoc; reflexivity|].
      split; [intros c' Hc'; rewrite Ho, Ho1; auto|].
      split; [rewrite Hst, Hst1, app_assoc; reflexivity|].
      split; [apply incl_app; [now apply incl_appl|now apply incl_appr]|].
      split; [|exact Hok].
      intros Ha. apply Permutation_app; [|now apply Hacc].
      apply Hacc1; auto. now destruct bd.
    + injection Hrun as <- <-.
      exists [bd ++ [j]], ds1. cbn [List.concat map]. rewrite app_nil_r.
      split; [exact Ht1|]. split; [exact Ho1|]. split; [exact Hst1|].
      split; [exact Hin1|]. split; [|exact I].
      intros Ha. apply Hacc1; auto. now destruct bd.
Qed.

Lemma process_folder_store (W : World) (f : string) (files : list string)
    (n : Z) (s : state) :
  exists ds,
    (forall c', c' <> collection_name_of W f ->
       Dict.get c' (docs (snd (process_folder W f files n s))) =
       Dict.get c' (docs s)) /\
    stored (docs (snd (process_folder W f files n s)))
      (collection_name_of W f)
      = stored (docs s) (collection_name_of W f) ++ ds /\
    incl ds (documents_of (List.concat
               (dispatched s (snd (process_folder W f files n s))))) /\
    (store_accepts_all W ->
     Permutation ds
       (documents_of (List.concat
          (dispatched s (snd (process_folder W f files n s)))))).
Proof.
  assert (Hearly : forall e : exn, exists ds,
    (forall c', c' <> collection_name_of W f ->
       Dict.get c' (docs (snd (@Raise Stats e, s))) = Dict.get c' (docs s)) /\
    stored (docs (snd (@Raise Stats e, s))) (collection_name_of W f)
      = stored (docs s) (collection_name_of W f) ++ ds /\
    incl ds (documents_of (List.concat
               (dispatched s (snd (@Raise Stats e, s))))) /\
    (store_accepts_all W ->
     Permutation ds
       (documents_of (List.concat
          (dispatched s (snd (@Raise Stats e, s))))))).
  { intros e. cbn [snd]. exists []. unfold dispatched.
    rewrite skipn_all, app_nil_r. cbn. repeat split; auto. apply incl_refl. }
  rewrite process_folder_unfold.
  destruct (db s); [|apply Hearly].
  destruct (valid_collection_name _); [|apply Hearly].
  clear Hearly.
  match goal with |- context [process_files W f ?c n files [] ?st0 s] =>
    destruct (process_files W f c n files [] st0 s) as [r1 s1] eqn:Hloop;
      destruct (process_files_store W f c n files [] st0 s r1 s1
                  (Forall_nil _) Hloop)
        as (bs & ds & Ht & Ho & Hst & Hin & Hacc & Hok)
  end.
  destruct r1 as [[bd st1]|e]; cbn [snd].
  2:{ exists ds. rewrite (dispatched_app _ _ _ Ht), batches_of_inserts. auto. }
  destruct bd as [|j bd]; cbn [snd].
  { exists ds. rewrite (dispatched_app _ _ _ Ht), batches_of_inserts. auto. }
  destruct (execute_batch W (collection_name_of W f) (j :: bd) s1)
    as [r2 s2] eqn:Hex.
  destruct (execute_batch_effect _ _ _ _ _ _ Hex) as (Ht2 & _).
  destruct (execute_batch_store _ _ _ _ _ _ Hex)
    as (Ho2 & ds2 & Hst2 & Hin2 & Hacc2).
  assert (G : exists ds0,
    (forall c', c' <> collection_name_of W f ->
       Dict.get c' (docs s2) = Dict.get c' (docs s)) /\
    stored (docs s2) (collection_name_of W f)
      = stored (docs s) (collection_name_of W f) ++ ds0 /\
    incl ds0 (documents_of (List.concat (dispatched s s2))) /\
    (store_accepts_all W ->
     Permutation ds0 (documents_of (List.concat (dispatched s s2))))).
  { assert (T : trace s2 = trace s ++
                  map (EInsertMany (collection_name_of W f))
                    (bs ++ [j :: bd]))
      by (rewrite Ht2, Ht, map_app, <- app_assoc; reflexivity).
    rewrite (dispatched_app _ _ _ T), batches_of_inserts.
    rewrite concat_app, documents_of_app. cbn [List.concat].
    rewrite app_nil_r.
    exists (ds ++ ds2).
    split; [intros c' Hc'; rewrite Ho2, Ho; auto|].
    split; [rewrite Hst2, Hst, app_assoc; reflexivity|].
    split; [apply incl_app; [now apply incl_appl|now apply incl_appr]|].
    intros Ha. apply Permutation_app; [now apply Hacc|].
    apply Hacc2; auto. discriminate. }
  destruct r2 as [[]|e]; cbn [snd]; exact G.
Qed.

(** X9. Whatever the store answers, [process_folder] leaves every other
    collection as it was, and in its own collection it only appends: the
    documents already stored stay in place, and what is added comes from
    the batches it dispatched. *)
Theorem partition_writes_only_its_collection (W : World)
    (folder_name : string) (file_list : list string) (batch_size : Z)
    (s : state) :
  (forall c, c <> collection_name_of W folder_name ->
     Dict.get c (docs (snd (process_folder W folder_name file_list
                              batch_size s))) =
     Dict.get c (docs s)) /\
  exists added,
    stored (docs (snd (process_folder W folder_name file_list
                         batch_size s)))
      (collection_name_of W folder_name) =
    stored (docs s) (collection_name_of W folder_name) ++ added /\
    incl added
      (documents_of (List.concat
         (dispatched s (snd (process_folder W folder_name file_list
                               batch_size s))))).
Proof.
  destruct (process_folder_store W folder_name file_list batch_size s)
    as (ds & Ho & Hst & Hin & _).
  split; [exact Ho|]. exists ds. auto.
Qed.

(** X10. With a store that accepts every batch, when [process_folder]
    returns, its collection holds what it held before followed by the
    records of the partition, each one once and in an order the store
    chooses, as many as [loaded_files] says. *)
Theorem accepted_partition_is_stored (W : World) (folder_name : string)
    (file_list : list string) (batch_size : Z) (s : state) (st : Stats) :
  store_accepts_all W ->
  fst (process_folder W folder_name file_list batch_size s) = Ok st ->
  exists added,
    stored (docs (snd (process_folder W folder_name file_list
                         batch_size s)))
      (collection_name_of W folder_name) =
    stored (docs s) (collection_name_of W folder_name) ++ added /\
    Permutation added
      (documents_of (records (zip_file s) folder_name file_list)) /\
    Z.of_nat (List.length added) = loaded_files st.
Proof.
  intros Ha Hret.
  destruct (process_folder_store W folder_name file_list batch_size s)
    as (ds & _ & Hst & _ & Hacc).
  specialize (Hacc Ha).
  destruct (process_folder W folder_name file_list batch_size s)
    as [r s'] eqn:Hrun.
  cbn [fst snd] in *. subst r.
  destruct (process_folder_spec _ _ _ _ _ _ _ Hrun)
    as (bs & Ht & _ & _ & _ & Hrec & Hok).
  destruct Hok as (_ & _ & _ & _ & Hloaded & Hcat & _).
  rewrite (dispatched_app _ _ _ Ht), batches_of_inserts, Hcat in Hacc.
  exists ds. split; [exact Hst|]. split; [exact Hacc|].
  rewrite (Permutation_length Hacc), Hloaded. f_equal.
  assert (Hall : Forall (fun j => exists d, j = JObj d)
                   (records (zip_file s) folder_name file_list)).
  { rewrite <- Hcat. apply Forall_concat.
    eapply Forall_impl; [|exact Hrec]. intros b Hb.
    eapply Forall_impl; [|exact Hb].
    intros j (p & v & d & _ & _ & _ & -> & _). eauto. }
  clear - Hall. induction Hall as [|j l (d & ->) Hl IH]; cbn; congruence.
Qed.

(** A store that lays the documents of each batch down in reverse. *)
Lemma accepted_partition_is_stored_witness :
  exists added,
    stored (docs (snd (process_folder
                         (Cases.reversing_world Samples.small_archive)
                         "Ventas 2024" Samples.small_files 2
                         (Samples.ready
                            (Cases.reversing_world Samples.small_archive)
                            Samples.small_archive))))
      (collection_name_of (Cases.reversing_world Samples.small_archive)
         "Ventas 2024") =
    stored (docs (Samples.ready (Cases.reversing_world Samples.small_archive)
                    Samples.small_archive))
      (collection_name_of (Cases.reversing_world Samples.small_archive)
         "Ventas 2024") ++ added /\
    Permutation added
      (documents_of (records (Some Samples.small_archive) "Ventas 2024"
                       Samples.small_files)) /\
    Z.of_nat (List.length added) = 3.
Proof.
  apply (accepted_partition_is_stored
           (Cases.reversing_world Samples.small_archive) "Ventas 2024"
           Samples.small_files 2
           (Samples.ready (Cases.reversing_world Samples.small_archive)
              Samples.small_archive)
           {| total_files := 5; loaded_files := 3; failed_files := 2;
              batch_count := 2 |}).
  - intros t c b. reflexivity.
  - reflexivity.
Defined.

(** With that store the first batch lands behind the old document in
    reverse entry order. *)
Example unordered_insert_reorders :
  let W := Cases.reversing_world Samples.small_archive in
  map (Dict.get "_source_file")
    (stored (docs (snd (process_folder W "Ventas 2024" Samples.small_files 2
                          (Samples.ready W Samples.small_archive))))
       "ventas_2024") =
  [None; Some (JStr "Ventas 2024/c.json"); Some (JStr "Ventas 2024/a.json");
   Some (JStr "Ventas 2024/d.json")].
Proof. reflexivity. Qed.

(** ** Relations kept by every run of a computation *)

Section Keeps.

Variable R : state -> state -> Prop.
Hypothesis R_refl : forall s, R s s.
Hypothesis R_trans : forall s1 s2 s3, R s1 s2 -> R s2 s3 -> R s1 s3.

Lemma keeps_ret {A} (a : A) : keeps R (ret a).
Proof. intros s r s' H. injection H as <- <-. apply R_refl. Qed.

Lemma keeps_raise {A} (e : exn) : keeps R (@raise A e).
Proof. intros s r s' H. injection H as <- <-. apply R_refl. Qed.

Lemma keeps_lift {A} (x : result A) : keeps R (lift x).
Proof. destruct x; [apply keeps_ret|apply keeps_raise]. Qed.

Lemma keeps_bind {A B} (m : M A) (k : A -> M B) :
  keeps R m -> (forall a, keeps R (k a)) -> keeps R (bind m k).
Proof.
  intros Hm Hk s r s' H. unfold bind in H.
  destruct (m s) as [[a|e] s1] eqn:E.
  - eapply R_trans; [exact (Hm _ _ _ E)|exact (Hk a _ _ _ H)].
  - injection H as <- <-. exact (Hm _ _ _ E).
Qed.

Lemma keeps_dispatch {A} (clauses : list ((exn -> bool) * (exn -> M A)))
    (e : exn) :
  Forall (fun c => forall e', keeps R (snd c e')) clauses ->
  keeps R (dispatch clauses e).
Proof.
  induction 1 as [|[h k] cl Hc Hcl IH]; cbn [dispatch].
  - apply keeps_raise.
  - destruct (h e); [apply Hc|exact IH].
Qed.

Lemma keeps_try_excepts {A} (body : M A)
    (clauses : list ((exn -> bool) * (exn -> M A))) :
  keeps R body ->
  Forall (fun c => forall e', keeps R (snd c e')) clauses ->
  keeps R (try_excepts body clauses).
Proof.
  intros Hb Hc s r s' H. unfold try_excepts in H.
  destruct (body s) as [[a|e] s1] eqn:E.
  - injection H as <- <-. exact (Hb _ _ _ E).
  - eapply R_trans; [exact (Hb _ _ _ E)|].
    exact (keeps_dispatch clauses e Hc _ _ _ H).
Qed.

Lemma keeps_try_except {A} (body : M A) (handles : exn -> bool)
    (handler : exn -> M A) :
  keeps R body -> (forall e, keeps R (handler e)) ->
  keeps R (try_except body handles handler).
Proof.
  intros Hb Hh. apply keeps_try_excepts; [exact Hb|].
  repeat constructor. exact Hh.
Qed.

Lemma keeps_try_finally {A} (body : M A) (cleanup : M unit) :
  keeps R body -> keeps R cleanup -> keeps R (try_finally body cleanup).
Proof.
  intros Hb Hc s r s' H. unfold try_finally in H.
  destruct (body s) as [r1 s1] eqn:E.
  destruct (cleanup s1) as [[[]|e] s2] eqn:E2;
    injection H as <- <-;
    (eapply R_trans; [exact (Hb _ _ _ E)|exact (Hc _ _ _ E2)]).
Qed.

Lemma keeps_now : keeps R now.
Proof. intros s r s' H. injection H as <- <-. apply R_refl. Qed.

Lemma keeps_get_db : keeps R get_db.
Proof. intros s r s' H. injection H as <- <-. apply R_refl. Qed.

Lemma keeps_get_client : keeps R get_client.
Proof. intros s r s' H. injection H as <- <-. apply R_refl. Qed.

Lemma keeps_get_zip_file : keeps R get_zip_file.
Proof. intros s r s' H. injection H as <- <-. apply R_refl. Qed.

Lemma keeps_first_document (c : string) : keeps R (first_document c).
Proof. intros s r s' H. injection H as <- <-. apply R_refl. Qed.

End Keeps.

Lemma grows_by_refl (p : event -> bool) (s : state) : grows_by p s s.
Proof. exists []. now rewrite app_nil_r. Qed.

Lemma grows_by_trans (p : event -> bool) (s1 s2 s3 : state) :
  grows_by p s1 s2 -> grows_by p s2 s3 -> grows_by p s1 s3.
Proof.
  intros (t1 & T1 & P1) (t2 & T2 & P2). exists (t1 ++ t2).
  rewrite T2, T1, app_assoc, forallb_app, P1, P2. auto.
Qed.

Lemma grows_by_silent (p : event -> bool) (s s' : state) :
  trace s' = trace s -> grows_by p s s'.
Proof. intros H. exists []. now rewrite app_nil_r. Qed.

Lemma keeps_grows_log (p : event -> bool) (e : event) :
  p e = true -> keeps (grows_by p) (log e).
Proof.
  intros He s r s' H. injection H as <- <-. exists [e]. cbn.
  now rewrite He.
Qed.

Lemma keeps_grows_silent (p : event -> bool) {A} (m : M A) :
  (forall s, trace (snd (m s)) = trace s) -> keeps (grows_by p) m.
Proof.
  intros Hm s r s' H. apply grows_by_silent.
  specialize (Hm s). now rewrite H in Hm.
Qed.

Lemma same_docs_refl (s : state) : same_docs s s.
Proof. reflexivity. Qed.

Lemma same_docs_trans (s1 s2 s3 : state) :
  same_docs s1 s2 -> same_docs s2 s3 -> same_docs s1 s3.
Proof. unfold same_docs. congruence. Qed.

Ltac keeps_go refl trans leaf :=
  repeat match goal with
  | |- keeps _ (bind _ _) =>
      apply keeps_bind; try exact refl; try exact trans; [|intros ?]
  | |- keeps _ (ret _) => apply keeps_ret; exact refl
  | |- keeps _ (raise _) => apply keeps_raise; exact refl
  | |- keeps _ (lift _) => apply keeps_lift; exact refl
  | |- keeps _ (try_except _ _ _) =>
      apply keeps_try_except; try exact refl; try exact trans; [|intros ?]
  | |- keeps _ now => apply keeps_now; exact refl
  | |- keeps _ get_db => apply keeps_get_db; exact refl
  | |- keeps _ get_client => apply keeps_get_client; exact refl
  | |- keeps _ get_zip_file => apply keeps_get_zip_file; exact refl
  | |- keeps _ (first_document _) => apply keeps_first_document; exact refl
  | |- keeps _ (match ?x with _ => _ end) => destruct x
  | |- keeps _ _ => progress leaf
  end.

Ltac grows_leaf :=
  first [ apply keeps_grows_log; reflexivity
        | apply keeps_grows_silent; intros ?; reflexivity ].

Ltac grows_go p :=
  keeps_go (grows_by_refl p) (grows_by_trans p) grows_leaf.

(** ** Order of the calls of a run *)

Lemma connect_grows (W : World) :
  keeps (grows_by not_index_call) (connect_to_mongodb W).
Proof. unfold connect_to_mongodb. grows_go not_index_call. Qed.

Lemma open_zip_grows (W : World) :
  keeps (grows_by not_index_call) (open_zip_file W).
Proof. unfold open_zip_file. grows_go not_index_call. Qed.

Lemma analyze_grows (W : World) :
  keeps (grows_by not_index_call) (analyze_zip_structure W).
Proof. unfold analyze_zip_structure. grows_go not_index_call. Qed.

Lemma inserts_are_not_index_calls (c : string) (bs : list (list json)) :
  forallb not_index_call (map (EInsertMany c) bs) = true.
Proof. induction bs; cbn; auto. Qed.

Lemma process_folder_grows (W : World) (f : string) (files : list string)
    (n : Z) :
  keeps (grows_by not_index_call) (process_folder W f files n).
Proof.
  intros s r s' H.
  destruct (process_folder_spec _ _ _ _ _ _ _ H) as (bs & Ht & _).
  exists (map (EInsertMany (collection_name_of W f)) bs).
  split; [exact Ht|apply inserts_are_not_index_calls].
Qed.

Lemma process_folders_grows (W : World) (fs : dict (list string)) :
  forall total names,
    keeps (grows_by not_index_call) (process_folders W fs total names).
Proof.
  induction fs as [|[f files] fs IH]; intros total names;
    cbn [process_folders].
  - apply keeps_ret. apply grows_by_refl.
  - apply keeps_bind; [apply grows_by_trans|apply process_folder_grows|].
    intros st. apply IH.
Qed.

Lemma create_index_grows (W : World) (c : string) (k : index_key) :
  keeps (grows_by not_insert) (create_index W c k).
Proof. unfold create_index. grows_go not_insert. Qed.

Lemma find_one_grows (W : World) (c : string) :
  keeps (grows_by not_insert) (find_one W c).
Proof. unfold find_one. grows_go not_insert. Qed.

Lemma index_collection_grows (W : World) (c : string) :
  keeps (grows_by not_insert) (index_collection W c).
Proof.
  unfold index_collection.
  keeps_go (grows_by_refl not_insert) (grows_by_trans not_insert)
    ltac:(first [ apply create_index_grows | apply find_one_grows
                | match goal with
                  | |- keeps _ (if ?b then _ else _) => destruct b
                  end
                | grows_leaf ]).
Qed.

Lemma create_indexes_grows (W : World) (cs : list string) :
  keeps (grows_by not_insert) (create_indexes W cs).
Proof.
  unfold create_indexes.
  apply keeps_bind; [apply grows_by_trans|apply keeps_get_db, grows_by_refl|].
  intros d. destruct (negb d); [grows_leaf|].
  induction cs as [|c cs IH]; cbn [index_collections].
  - apply keeps_ret, grows_by_refl.
  - apply keeps_bind;
      [apply grows_by_trans|apply index_collection_grows|intros _; exact IH].
Qed.

Lemma grows_then_loads (s1 s2 s3 : state) :
  grows_by not_index_call s1 s2 -> loads_then_indexes s2 s3 ->
  loads_then_indexes s1 s3.
Proof.
  intros (t & T & P) (t1 & t2 & T' & P1 & P2).
  exists (t ++ t1), t2. rewrite T', T, <- !app_assoc, forallb_app, P, P1.
  auto.
Qed.

Lemma loads_then_grows (s1 s2 s3 : state) :
  loads_then_indexes s1 s2 -> grows_by not_insert s2 s3 ->
  loads_then_indexes s1 s3.
Proof.
  intros (t1 & t2 & T & P1 & P2) (t & T' & P).
  exists t1, (t2 ++ t). rewrite T', T, <- !app_assoc, forallb_app, P2, P.
  auto.
Qed.

Lemma loads_of_grows (s1 s2 : state) :
  grows_by not_index_call s1 s2 -> loads_then_indexes s1 s2.
Proof.
  intros (t & T & P). exists t, []. rewrite app_nil_r. auto.
Qed.

Lemma indexes_of_grows (s1 s2 : state) :
  grows_by not_insert s1 s2 -> loads_then_indexes s1 s2.
Proof. intros (t & T & P). exists [], t. auto. Qed.

Lemma keeps_loads_bind {A B} (m : M A) (k : A -> M B) :
  keeps (grows_by not_index_call) m ->
  (forall a, keeps loads_then_indexes (k a)) ->
  keeps loads_then_indexes (bind m k).
Proof.
  intros Hm Hk s r s' H. unfold bind in H.
  destruct (m s) as [[a|e] s1] eqn:E.
  - eapply grows_then_loads; [exact (Hm _ _ _ E)|exact (Hk a _ _ _ H)].
  - injection H as <- <-. apply loads_of_grows. exact (Hm _ _ _ E).
Qed.

Lemma keeps_loads_of_grows {A} (m : M A) :
  keeps (grows_by not_index_call) m -> keeps loads_then_indexes m.
Proof. intros Hm s r s' H. apply loads_of_grows. exact (Hm _ _ _ H). Qed.

Lemma keeps_indexes_of_grows {A} (m : M A) :
  keeps (grows_by not_insert) m -> keeps loads_then_indexes m.
Proof. intros Hm s r s' H. apply indexes_of_grows. exact (Hm _ _ _ H). Qed.

Lemma run_complete_process_order (W : World) :
  keeps loads_then_indexes (run_complete_process W).
Proof.
  unfold run_complete_process.
  apply keeps_loads_bind; [apply connect_grows|]. intros connected.
  destruct (negb connected).
  { apply keeps_loads_of_grows, keeps_ret, grows_by_refl. }
  apply keeps_loads_bind; [apply open_zip_grows|]. intros _.
  apply keeps_loads_bind; [apply analyze_grows|]. intros fs.
  destruct fs as [|kv fs].
  { apply keeps_loads_of_grows. grows_go not_index_call. }
  apply keeps_loads_bind; [apply process_folders_grows|].
  intros [total names].
  apply keeps_indexes_of_grows.
  apply keeps_bind; [apply grows_by_trans|apply create_indexes_grows|].
  intros _. grows_go not_insert.
Qed.

Lemma main_body_order (W : World) :
  keeps loads_then_indexes (main_body W).
Proof.
  intros s r s' H. unfold main_body, bind in H.
  destruct (run_complete_process W s) as [[b|e] s1] eqn:E.
  - eapply loads_then_grows; [exact (run_complete_process_order W _ _ _ E)|].
    revert H. destruct (negb b); intros H; injection H as <- <-.
    + exists [EReport MsgLoadFailed]. auto.
    + apply grows_by_refl.
  - injection H as <- <-. exact (run_complete_process_order W _ _ _ E).
Qed.

Lemma cleanup_run (s1 : state) :
  bind close_connection (fun _ => log (EReport MsgClosed)) s1 =
  (Ok tt,
   {| client := client s1; db := db s1; zip_file := zip_file s1;
      docs := docs s1; indexes := indexes s1;
      trace := trace s1 ++ release_events s1 |}).
Proof.
  unfold close_connection, release_events. unfold_monad.
  destruct s1 as [c d z dc ix t]. cbn.
  destruct z, c; cbn; rewrite <- ?app_assoc; reflexivity.
Qed.

(** [main] after its [try] body: at most one report, then the release of
    whatever the loader holds. *)
Lemma main_epilogue (W : World) (mongo_uri : option string) (s : state) :
  uri_missing mongo_uri = false ->
  main W mongo_uri s =
  (main_result (fst (main_body W s)),
   {| client := client (snd (main_body W s));
      db := db (snd (main_body W s));
      zip_file := zip_file (snd (main_body W s));
      docs := docs (snd (main_body W s));
      indexes := indexes (snd (main_body W s));
      trace := trace (snd (main_body W s)) ++
               main_reports (fst (main_body W s)) ++
               release_events (snd (main_body W s)) |}).
Proof.
  intros Huri. unfold main. rewrite Huri.
  match goal with |- _ = ?rhs =>
    change (try_finally
              (try_excepts (main_body W)
                 [(is_KeyboardInterrupt,
                   fun _ => log (EReport MsgInterrupted));
                  (is_Exception, fun e => log (EReport (MsgUnexpected e)))])
              (bind close_connection (fun _ => log (EReport MsgClosed))) s
            = rhs)
  end.
  unfold try_finally, try_excepts.
  destruct (main_body W s) as [r1 s1]. cbn [fst snd].
  destruct r1 as [[]|e]; cbn [main_result main_reports dispatch fst snd].
  - rewrite cleanup_run. reflexivity.
  - destruct (is_KeyboardInterrupt e); [|destruct (is_Exception e)].
    + unfold log at 1. rewrite cleanup_run. cbn.
      unfold release_events. cbn. now rewrite <- app_assoc.
    + unfold log at 1. rewrite cleanup_run. cbn.
      unfold release_events. cbn. now rewrite <- app_assoc.
    + unfold raise. rewrite cleanup_run. reflexivity.
Qed.

Lemma main_reports_quiet (r : result unit) :
  forallb not_insert (main_reports r) = true.
Proof.
  destruct r as [[]|e]; cbn; [reflexivity|].
  destruct (is_KeyboardInterrupt e); [reflexivity|].
  destruct (is_Exception e); reflexivity.
Qed.

Lemma release_events_quiet (s : state) :
  forallb not_insert (release_events s) = true.
Proof.
  unfold release_events. now destruct (zip_file s), (client s).
Qed.

(** ** The run as a whole *)

(** X11. Once the connection string is present, [main] ends every run,
    whatever happened in it, by closing the archive if it was opened,
    closing the client if one was created, and reporting the closure;
    these are the last events of the trace. *)
Theorem main_releases_what_it_holds (W : World) (mongo_uri : option string)
    (s : state) :
  uri_missing mongo_uri = false ->
  exists t,
    trace (snd (main W mongo_uri s)) =
    t ++ release_events (snd (main W mongo_uri s)).
Proof.
  intros Huri. rewrite (main_epilogue W mongo_uri s Huri). cbn [snd trace].
  exists (trace (snd (main_body W s)) ++ main_reports (fst (main_body W s))).
  now rewrite <- app_assoc.
Qed.

Lemma main_releases_what_it_holds_witness :
  exists t,
    trace (snd (main Cases.unreadable_world (Some "mongodb+srv://cluster0")
                  (init_state Cases.unreadable_world))) =
    t ++ release_events
           (snd (main Cases.unreadable_world (Some "mongodb+srv://cluster0")
                   (init_state Cases.unreadable_world))).
Proof.
  apply (main_releases_what_it_holds Cases.unreadable_world
           (Some "mongodb+srv://cluster0")
           (init_state Cases.unreadable_world)).
  reflexivity.
Defined.

(** X12. [main] never lets an ordinary exception or a keyboard interrupt
    escape: it returns normally, or it is left by [SystemExit]. *)
Theorem main_contains_failures (W : World) (mongo_uri : option string)
    (s : state) :
  fst (main W mongo_uri s) = Ok tt \/
  fst (main W mongo_uri s) = Raise SystemExit.
Proof.
  destruct (uri_missing mongo_uri) eqn:Huri.
  - left. unfold main. now rewrite Huri.
  - rewrite (main_epilogue W mongo_uri s Huri). cbn [fst].
    destruct (fst (main_body W s)) as [[]|e]; [now left|].
    destruct e; cbn; auto.
Qed.

Lemma no_insert_no_exists (t : list event) :
  forallb not_insert t = true -> existsb is_insert t = false.
Proof.
  induction t as [|e t IH]; cbn; [reflexivity|].
  unfold not_insert at 1. intros H.
  apply andb_true_iff in H. destruct H as (He & Ht).
  apply negb_true_iff in He. now rewrite He, IH.
Qed.

Lemma no_insert_ordered (t : list event) :
  forallb not_insert t = true -> inserts_precede_indexing t = true.
Proof.
  induction t as [|e t IH]; cbn; [reflexivity|].
  intros H. apply andb_true_iff in H. destruct H as (_ & Ht).
  destruct (is_index_call e); [|now apply IH].
  now rewrite (no_insert_no_exists t Ht).
Qed.

Lemma loads_then_indexes_ordered (t1 t2 : list event) :
  forallb not_index_call t1 = true -> forallb not_insert t2 = true ->
  inserts_precede_indexing (t1 ++ t2) = true.
Proof.
  intros H1 H2. induction t1 as [|e t1 IH]; cbn.
  - now apply no_insert_ordered.
  - cbn in H1. apply andb_true_iff in H1. destruct H1 as (He & H1).
    unfold not_index_call in He. apply negb_true_iff in He.
    rewrite He. now apply IH.
Qed.

(** X13. In every run of [main], whatever the archive holds and whatever
    the store answers, no [insert_many] is issued after the first call of
    the index builder: index creation starts only when all the data has
    been sent. *)
Theorem indexing_starts_after_the_last_insert (W : World)
    (mongo_uri : option string) :
  inserts_precede_indexing
    (trace (snd (main W mongo_uri (init_state W)))) = true.
Proof.
  destruct (uri_missing mongo_uri) eqn:Huri.
  - unfold main. now rewrite Huri.
  - rewrite (main_epilogue W mongo_uri (init_state W) Huri).
    cbn [snd trace].
    destruct (main_body W (init_state W)) as [r1 s1] eqn:Hbody.
    cbn [fst snd].
    destruct (main_body_order W _ _ _ Hbody) as (t1 & t2 & T & P1 & P2).
    rewrite T. cbn [init_state trace app].
    rewrite <- !app_assoc. apply loads_then_indexes_ordered; [exact P1|].
    now rewrite !forallb_app, P2, main_reports_quiet, release_events_quiet.
Qed.

Lemma connect_ok (W : World) (s : state) :
  w_connect W = Connected ->
  connect_to_mongodb W s =
  (Ok true,
   {| client := true; db := true; zip_file := zip_file s; docs := docs s;
      indexes := indexes s; trace := trace s ++ [EConnect; EPing] |}).
Proof.
  intros H. unfold connect_to_mongodb. rewrite H. unfold_monad. cbn.
  now rewrite <- app_assoc.
Qed.

Lemma open_zip_ok (W : World) (a : archive) (s : state) :
  w_zip W = Ok a ->
  open_zip_file W s =
  (Ok tt,
   {| client := client s; db := db s; zip_file := Some a; docs := docs s;
      indexes := indexes s; trace := trace s ++ [EOpenZip] |}).
Proof. intros H. unfold open_zip_file. rewrite H. reflexivity. Qed.

Lemma analyze_ok (W : World) (a : archive) (s : state) :
  w_zip W = Ok a ->
  analyze_zip_structure W s =
  (Ok (listing a),
   {| client := client s; db := db s; zip_file := zip_file s;
      docs := docs s; indexes := indexes s;
      trace := trace s ++ [EListZip] |}).
Proof. intros H. unfold analyze_zip_structure. rewrite H. reflexivity. Qed.

Lemma exception_is_not_interrupt (e : exn) :
  is_Exception e = true -> is_KeyboardInterrupt e = false.
Proof. destruct e; cbn; congruence. Qed.

Lemma main_body_unreadable (W : World) (e : exn) (s : state) :
  w_connect W = Connected -> w_zip W = Raise e ->
  main_body W s =
  (Raise e,
   {| client := true; db := true; zip_file := zip_file s; docs := docs s;
      indexes := indexes s;
      trace := trace s ++ [EConnect; EPing; EOpenZip] |}).
Proof.
  intros Hc Hz. unfold main_body, run_complete_process, bind.
  rewrite (connect_ok W s Hc). cbv beta iota. cbn [negb].
  unfold open_zip_file, bind, log, raise. rewrite Hz. cbn.
  now rewrite <- app_assoc.
Qed.

(** X14. With a reachable store and an archive that cannot be opened,
    [main] reports the error, closes the client and returns; nothing is
    listed, sent or indexed and the store is as it was. *)
Theorem unreadable_archive_stops_the_run (W : World)
    (mongo_uri : option string) (e : exn) :
  uri_missing mongo_uri = false -> w_connect W = Connected ->
  w_zip W = Raise e -> is_Exception e = true ->
  main W mongo_uri (init_state W) =
  (Ok tt,
   {| client := true; db := true; zip_file := None; docs := w_store0 W;
      indexes := [];
      trace := [EConnect; EPing; EOpenZip; EReport (MsgUnexpected e);
                ECloseClient; EReport MsgClosed] |}).
Proof.
  intros Huri Hc Hz He.
  rewrite (main_epilogue W mongo_uri _ Huri).
  rewrite (main_body_unreadable W e _ Hc Hz).
  cbn [fst snd main_result main_reports].
  rewrite (exception_is_not_interrupt e He), He. reflexivity.
Qed.

Lemma unreadable_archive_stops_the_run_witness :
  main Cases.unreadable_world (Some "mongodb+srv://cluster0")
    (init_state Cases.unreadable_world) =
  (Ok tt,
   {| client := true; db := true; zip_file := None;
      docs := w_store0 Cases.unreadable_world; indexes := [];
      trace := [EConnect; EPing; EOpenZip; EReport (MsgUnexpected BadZipFile);
                ECloseClient; EReport MsgClosed] |}).
Proof.
  apply (unreadable_archive_stops_the_run Cases.unreadable_world
           (Some "mongodb+srv://cluster0") BadZipFile); reflexivity.
Defined.

Lemma listing_without_data (names : list string) (d : dict (list string)) :
  existsb is_json_entry names = false -> fold_left classify names d = d.
Proof.
  revert d. induction names as [|p names IH]; intros d; [reflexivity|].
  cbn. intros H. apply orb_false_iff in H. destruct H as (Hp & Hn).
  rewrite classify_unfold, Hp. now apply IH.
Qed.

Lemma main_body_without_data (W : World) (a : archive) (s : state) :
  w_connect W = Connected -> w_zip W = Ok a ->
  existsb is_json_entry (map fst a) = false ->
  main_body W s =
  (Ok tt,
   {| client := true; db := true; zip_file := Some a; docs := docs s;
      indexes := indexes s;
      trace := trace s ++ [EConnect; EPing; EOpenZip; EListZip;
                           EReport MsgNoJsonFound; EReport MsgLoadFailed] |}).
Proof.
  intros Hc Hz Hnone. unfold main_body, run_complete_process, bind.
  rewrite (connect_ok W s Hc). cbv beta iota. cbn [negb].
  rewrite (open_zip_ok W a _ Hz). cbv beta iota.
  rewrite (analyze_ok W a _ Hz). cbv beta iota.
  unfold listing. rewrite (listing_without_data _ _ Hnone).
  unfold log, ret. cbn. now rewrite <- !app_assoc.
Qed.

(** X15. With a reachable store and an archive without any data entry,
    [main] reports that no JSON file was found and that the load failed,
    releases the archive and the client, and neither sends nor indexes
    anything. *)
Theorem archive_without_data_stops_the_run (W : World)
    (mongo_uri : option string) (a : archive) :
  uri_missing mongo_uri = false -> w_connect W = Connected ->
  w_zip W = Ok a -> existsb is_json_entry (map fst a) = false ->
  main W mongo_uri (init_state W) =
  (Ok tt,
   {| client := true; db := true; zip_file := Some a; docs := w_store0 W;
      indexes := [];
      trace := [EConnect; EPing; EOpenZip; EListZip;
                EReport MsgNoJsonFound; EReport MsgLoadFailed;
                ECloseZip; ECloseClient; EReport MsgClosed] |}).
Proof.
  intros Huri Hc Hz Hnone.
  rewrite (main_epilogue W mongo_uri _ Huri).
  rewrite (main_body_without_data W a _ Hc Hz Hnone).
  reflexivity.
Qed.

Lemma archive_without_data_stops_the_run_witness :
  main (Samples.world Cases.text_archive) (Some "mongodb+srv://cluster0")
    (init_state (Samples.world Cases.text_archive)) =
  (Ok tt,
   {| client := true; db := true; zip_file := Some Cases.text_archive;
      docs := []; indexes := [];
      trace := [EConnect; EPing; EOpenZip; EListZip;
                EReport MsgNoJsonFound; EReport MsgLoadFailed;
                ECloseZip; ECloseClient; EReport MsgClosed] |}).
Proof.
  apply (archive_without_data_stops_the_run
           (Samples.world Cases.text_archive)
           (Some "mongodb+srv://cluster0") Cases.text_archive);
    reflexivity.
Defined.

(** ** The index builder and the documents *)

Ltac docs_leaf :=
  let s := fresh in let r := fresh in let s' := fresh in let H := fresh in
  intros s r s' H; injection H as <- <-; reflexivity.

Ltac docs_go := keeps_go same_docs_refl same_docs_trans docs_leaf.

Lemma create_index_docs (W : World) (c : string) (k : index_key) :
  keeps same_docs (create_index W c k).
Proof. unfold create_index. docs_go. Qed.

Lemma find_one_docs (W : World) (c : string) :
  keeps same_docs (find_one W c).
Proof. unfold find_one. docs_go. Qed.

Lemma index_collection_docs (W : World) (c : string) :
  keeps same_docs (index_collection W c).
Proof.
  unfold index_collection.
  keeps_go same_docs_refl same_docs_trans
    ltac:(first [ apply create_index_docs | apply find_one_docs
                | match goal with
                  | |- keeps _ (if ?b then _ else _) => destruct b
                  end
                | docs_leaf ]).
Qed.

Lemma create_indexes_docs (W : World) (cs : list string) :
  keeps same_docs (create_indexes W cs).
Proof.
  unfold create_indexes.
  apply keeps_bind; [apply same_docs_trans|apply keeps_get_db, same_docs_refl|].
  intros d. destruct (negb d); [docs_leaf|].
  induction cs as [|c cs IH]; cbn [index_collections].
  - apply keeps_ret, same_docs_refl.
  - apply keeps_bind;
      [apply same_docs_trans|apply index_collection_docs|intros _; exact IH].
Qed.

(** X16. Whatever its calls answer, [create_indexes] leaves every stored
    document as it was and issues no [insert_many]. *)
Theorem index_builder_leaves_documents (W : World)
    (collections : list string) (s : state) :
  docs (snd (create_indexes W collections s)) = docs s /\
  existsb is_insert (since s (snd (create_indexes W collections s))) = false.
Proof.
  destruct (create_indexes W collections s) as [r s'] eqn:Hrun.
  cbn [snd]. split.
  - exact (create_indexes_docs W collections _ _ _ Hrun).
  - destruct (create_indexes_grows W collections _ _ _ Hrun) as (t & T & P).
    unfold since. rewrite T, skipn_app, skipn_all, Nat.sub_diag.
    cbn [skipn app]. now apply no_insert_no_exists.
Qed.

(** X17. When the connection cannot be established, the loader is left
    without a database handle, and a [process_folder] called on it raises
    [RuntimeError] without reading an entry or sending a batch. *)
Theorem failed_connection_blocks_loading (W : World) (s : state)
    (folder_name : string) (file_list : list string) (batch_size : Z) :
  w_connect W <> Connected -> db s = false ->
  db (snd (connect_to_mongodb W s)) = false /\
  process_folder W folder_name file_list batch_size
    (snd (connect_to_mongodb W s)) =
  (Raise RuntimeError, snd (connect_to_mongodb W s)).
Proof.
  intros Hc Hdb.
  assert (H : db (snd (connect_to_mongodb W s)) = false).
  { unfold connect_to_mongodb. unfold_monad.
    destruct (w_connect W) as [|e|e]; [congruence| |]; cbn;
      destruct (is_ConnectionFailure e); cbn; exact Hdb. }
  split; [exact H|].
  rewrite process_folder_unfold. now rewrite H.
Qed.

Lemma failed_connection_blocks_loading_witness :
  db (snd (connect_to_mongodb (Samples.offline_world Samples.small_archive)
             (init_state (Samples.offline_world Samples.small_archive))))
    = false /\
  process_folder (Samples.offline_world Samples.small_archive)
    "Ventas 2024" Samples.small_files 8000
    (snd (connect_to_mongodb (Samples.offline_world Samples.small_archive)
            (init_state (Samples.offline_world Samples.small_archive)))) =
  (Raise RuntimeError,
   snd (connect_to_mongodb (Samples.offline_world Samples.small_archive)
          (init_state (Samples.offline_world Samples.small_archive)))).
Proof.
  apply (failed_connection_blocks_loading
           (Samples.offline_world Samples.small_archive)
           (init_state (Samples.offline_world Samples.small_archive))
           "Ventas 2024" Samples.small_files 8000).
  - discriminate.
  - reflexivity.
Defined.

(** X20. With a database handle, a partition whose collection name the
    driver refuses (empty, with two dots in a row, with a dollar sign,
    starting or ending with a dot, or with a null character) makes
    [process_folder] raise [InvalidName] at the collection lookup: no entry
    is read, no batch is sent and the loader is left as it was. *)
Theorem refused_name_stops_partition (W : World) (s : state)
    (folder_name : string) (file_list : list string) (batch_size : Z) :
  db s = true ->
  valid_collection_name (collection_name_of W folder_name) = false ->
  process_folder W folder_name file_list batch_size s =
  (Raise InvalidName, s).
Proof.
  intros Hdb Hname. rewrite process_folder_unfold. now rewrite Hdb, Hname.
Qed.

Lemma refused_name_stops_partition_witness :
  process_folder (Samples.world Samples.small_archive) "Facturas Ene."
    Samples.small_files 8000
    (Samples.ready (Samples.world Samples.small_archive)
       Samples.small_archive) =
  (Raise InvalidName,
   Samples.ready (Samples.world Samples.small_archive)
     Samples.small_archive).
Proof.
  apply (refused_name_stops_partition
           (Samples.world Samples.small_archive)
           (Samples.ready (Samples.world Samples.small_archive)
              Samples.small_archive)
           "Facturas Ene." Samples.small_files 8000).
  - reflexivity.
  - reflexivity.
Defined.

(** The names the lookup refuses and some it takes. *)
Example collection_names_checked :
  map valid_collection_name
    [""; "a..b"; "$caja"; ".caja"; "facturas_ene."; "ventas_2024";
     "a.b"; "$cmd.sys"] =
  [false; false; false; false; false; true; true; true].
Proof. reflexivity. Qed.

(** ** A run on a clean archive *)

Lemma getinfo_member (a : archive) (p : string) (m : member) :
  getinfo a p = Some m -> In m (map snd a).
Proof.
  induction a as [|[n m0] a IH]; cbn; [discriminate|].
  destruct (getinfo a p) as [m'|].
  - intros H. injection H as <-. right. now apply IH.
  - destruct (String.eqb p n); [|discriminate].
    intros H. injection H as <-. now left.
Qed.

Lemma harmless_loadable (a : archive) (files : list string) :
  forallb harmless_member (map snd a) = true -> loadable (Some a) files.
Proof.
  intros Hall p _. rewrite forallb_forall in Hall.
  unfold decode, open_and_load.
  destruct (getinfo a p) as [m|] eqn:E.
  - specialize (Hall m (getinfo_member a p m E)).
    destruct m as [v|e].
    + exists v. split; [reflexivity|]. intros Ht.
      destruct v; eauto; unfold harmless_member in Hall;
        rewrite Ht in Hall; discriminate.
    + cbn in Hall. rewrite Hall. exists JNull.
      split; [reflexivity|discriminate].
  - exists JNull. split; [reflexivity|discriminate].
Qed.

Lemma process_folders_run (W : World) (a : archive)
    (fs : dict (list string)) :
  store_fails_softly W ->
  forallb harmless_member (map snd a) = true ->
  forallb (fun f => valid_collection_name (collection_name_of W f))
    (Dict.keys fs) = true ->
  forall total names s,
    db s = true -> zip_file s = Some a ->
    exists s' t,
      process_folders W fs total names s =
        (Ok (total + Z.of_nat (List.length (all_records (Some a) fs)),
             names ++ map (collection_name_of W) (Dict.keys fs)), s') /\
      db s' = true /\
      trace s' = trace s ++ t /\
      List.concat (batches_of t) = all_records (Some a) fs.
Proof.
  intros Hsoft Hall.
  induction fs as [|[f files] fs IH]; intros Hnames total names s Hdb Hz.
  - exists s, []. cbn. rewrite !app_nil_r, Z.add_0_r. auto.
  - cbn [Dict.keys map fst forallb] in Hnames.
    apply andb_true_iff in Hnames. destruct Hnames as (Hf & Hnames).
    specialize (IH Hnames).
    cbn [process_folders]. unfold bind.
    destruct (process_folder_completes W f files 8000 s Hsoft Hdb Hf)
      as (st & s1 & Hrun);
      [rewrite Hz; now apply harmless_loadable|].
    rewrite Hrun.
    destruct (process_folder_spec _ _ _ _ _ _ _ Hrun)
      as (bs & Ht & (Hz1 & Hdb1 & _) & _ & _ & _ & Hok).
    destruct Hok as (_ & _ & _ & _ & Hloaded & Hcat & _).
    rewrite Hz in Hloaded, Hcat.
    destruct (IH (total + loaded_files st)
                 (names ++ [collection_name_of W f]) s1)
      as (s' & t & Hrest & Hdb' & Ht' & Hcat'); [congruence|congruence|].
    exists s', (map (EInsertMany (collection_name_of W f)) bs ++ t).
    split.
    { rewrite Hrest. cbn [all_records Dict.keys map].
      rewrite length_app, Nat2Z.inj_add, Hloaded, <- app_assoc.
      rewrite Z.add_assoc. reflexivity. }
    split; [exact Hdb'|].
    split; [rewrite Ht', Ht, <- app_assoc; reflexivity|].
    rewrite batches_of_app, batches_of_inserts, concat_app, Hcat, Hcat'.
    reflexivity.
Qed.

Lemma batches_of_quiet (t : list event) :
  forallb not_insert t = true -> batches_of t = [].
Proof.
  induction t as [|e t IH]; cbn; [reflexivity|].
  intros H. apply andb_true_iff in H. destruct H as (He & Ht).
  destruct e; cbn in He; try discriminate; now apply IH.
Qed.

Lemma create_indexes_returns (W : World) (cs : list string) (s : state) :
  indexing_fails_softly W -> db s = true ->
  exists s' t,
    create_indexes W cs s = (Ok tt, s') /\
    trace s' = trace s ++ t /\ forallb not_insert t = true.
Proof.
  intros Hsoft Hdb.
  destruct (index_collections_spec W cs Hsoft s) as (s' & Hrun & _).
  assert (Hc : create_indexes W cs s = (Ok tt, s'))
    by (unfold create_indexes, bind, get_db; rewrite Hdb; exact Hrun).
  destruct (create_indexes_grows W cs _ _ _ Hc) as (t & T & P).
  exists s', t. auto.
Qed.

Lemma listing_with_data (names : list string) :
  existsb is_json_entry names = true -> fold_left classify names [] <> [].
Proof.
  intros H. apply existsb_exists in H. destruct H as (p & Hin & Hp).
  intros Hnil.
  pose proof (listing_get names (partition_of p) []) as G.
  rewrite Hnil in G. cbn [Dict.get] in G.
  assert (Hp' : In p (entries_of names (partition_of p))).
  { unfold entries_of. apply filter_In. split; [exact Hin|].
    now rewrite Hp, String.eqb_refl. }
  destruct (entries_of names (partition_of p)); [destruct Hp'|discriminate].
Qed.

Lemma main_body_clean (W : World) (a : archive) (s : state) :
  w_connect W = Connected -> w_zip W = Ok a ->
  store_fails_softly W -> indexing_fails_softly W ->
  forallb harmless_member (map snd a) = true ->
  existsb is_json_entry (map fst a) = true ->
  forallb (fun f => valid_collection_name (collection_name_of W f))
    (Dict.keys (listing a)) = true ->
  exists s1 t1 t2,
    main_body W s = (Ok tt, s1) /\
    trace s1 =
      trace s ++ [EConnect; EPing; EOpenZip; EListZip] ++ t1 ++ t2 ++
      [EReport (MsgCompleted
         (Z.of_nat (List.length (all_records (Some a) (listing a)))))] /\
    List.concat (batches_of t1) = all_records (Some a) (listing a) /\
    forallb not_insert t2 = true.
Proof.
  intros Hc Hz Hsoft Hidx Hall Hdata Hnames.
  unfold main_body, run_complete_process, bind.
  rewrite (connect_ok W s Hc). cbv beta iota. cbn [negb].
  rewrite (open_zip_ok W a _ Hz). cbv beta iota.
  rewrite (analyze_ok W a _ Hz). cbv beta iota.
  pose proof (listing_with_data _ Hdata) as Hne. fold (listing a) in Hne.
  destruct (listing a) as [|kv fs] eqn:El; [congruence|].
  cbv beta iota.
  match goal with |- context [process_folders W _ 0 [] ?s2] =>
    destruct (process_folders_run W a (kv :: fs) Hsoft Hall Hnames 0 [] s2
                eq_refl eq_refl)
      as (s3 & t1 & Hrun & Hdb3 & Ht3 & Hcat)
  end.
  rewrite Hrun. cbv beta iota.
  match goal with |- context [create_indexes W ?cs s3] =>
    destruct (create_indexes_returns W cs s3 Hidx Hdb3)
      as (s4 & t2 & Hci & Ht4 & P2)
  end.
  rewrite Hci. cbv beta iota. unfold log, ret. cbn [negb].
  eexists _, t1, t2. split; [reflexivity|].
  split; [|split; [exact Hcat|exact P2]].
  cbn [trace]. rewrite Ht4, Ht3. cbn [trace].
  rewrite <- !app_assoc. reflexivity.
Qed.

(** X18. With a reachable store and index calls that fail with ordinary
    exceptions only, on an archive that has a data entry, whose members
    are all JSON objects, falsy documents or bytes the decoder handles, and
    whose partitions all get a collection name the driver accepts, [main]
    returns normally; the documents handed to the store over the whole run
    are the records of all the partitions, partition after partition in
    entry order, and the completion report gives their number. *)
Theorem clean_run_sends_every_record (W : World)
    (mongo_uri : option string) (a : archive) :
  uri_missing mongo_uri = false -> w_connect W = Connected ->
  w_zip W = Ok a -> store_fails_softly W -> indexing_fails_softly W ->
  forallb harmless_member (map snd a) = true ->
  existsb is_json_entry (map fst a) = true ->
  forallb (fun f => valid_collection_name (collection_name_of W f))
    (Dict.keys (listing a)) = true ->
  fst (main W mongo_uri (init_state W)) = Ok tt /\
  List.concat (batches_of (trace (snd (main W mongo_uri (init_state W))))) =
    all_records (Some a) (listing a) /\
  In (EReport (MsgCompleted
        (Z.of_nat (List.length (all_records (Some a) (listing a))))))
    (trace (snd (main W mongo_uri (init_state W)))).
Proof.
  intros Huri Hc Hz Hsoft Hidx Hall Hdata Hnames.
  destruct (main_body_clean W a (init_state W) Hc Hz Hsoft Hidx Hall Hdata
              Hnames)
    as (s1 & t1 & t2 & Hbody & Ht & Hcat & P2).
  rewrite (main_epilogue W mongo_uri _ Huri), Hbody.
  cbn [fst snd trace main_result main_reports app].
  split; [reflexivity|]. rewrite Ht. cbn [init_state trace app]. split.
  - cbn [batches_of]. rewrite !batches_of_app. cbn [batches_of].
    rewrite (batches_of_quiet t2 P2),
      (batches_of_quiet _ (release_events_quiet s1)), !app_nil_r.
    exact Hcat.
  - do 4 right. apply in_or_app. left.
    apply in_or_app. right. apply in_or_app. right. now left.
Qed.

Lemma clean_run_sends_every_record_witness :
  fst (main (Samples.world Samples.scenario_archive)
         (Some "mongodb+srv://cluster0")
         (init_state (Samples.world Samples.scenario_archive))) = Ok tt /\
  List.concat
    (batches_of
       (trace (snd (main (Samples.world Samples.scenario_archive)
                      (Some "mongodb+srv://cluster0")
                      (init_state (Samples.world Samples.scenario_archive))))))
    = all_records (Some Samples.scenario_archive)
        (listing Samples.scenario_archive) /\
  In (EReport (MsgCompleted
        (Z.of_nat (List.length
           (all_records (Some Samples.scenario_archive)
              (listing Samples.scenario_archive))))))
    (trace (snd (main (Samples.world Samples.scenario_archive)
                   (Some "mongodb+srv://cluster0")
                   (init_state (Samples.world Samples.scenario_archive))))).
Proof.
  apply (clean_run_sends_every_record
           (Samples.world Samples.scenario_archive)
           (Some "mongodb+srv://cluster0") Samples.scenario_archive).
  - reflexivity.
  - reflexivity.
  - reflexivity.
  - intros t c b e. cbn. discriminate.
  - split; cbn; discriminate.
  - reflexivity.
  - reflexivity.
  - reflexivity.
Defined.

(** ** What the provenance writes leave alone *)

(** X19. Every record handed to the Bulk Writer agrees with the document
    decoded from its entry on every field other than the two provenance
    keys: the injection changes nothing else. *)
Theorem dispatched_records_keep_source_fields (W : World)
    (folder_name : string) (file_list : list string) (batch_size : Z)
    (s : state) :
  Forall
    (Forall (fun j =>
       exists file_path d0 d,
         In file_path file_list /\
         decode (zip_file s) file_path = Ok (JObj d0) /\
         j = JObj d /\
         forall k, k <> "_source_file" -> k <> "_source_folder" ->
                   Dict.get k d = Dict.get k d0))
    (dispatched s (snd (process_folder W folder_name file_list
                          batch_size s))).
Proof.
  destruct (process_folder W folder_name file_list batch_size s)
    as [r s'] eqn:Hrun.
  destruct (process_folder_spec _ _ _ _ _ _ _ Hrun)
    as (bs & Ht & _ & _ & _ & Hrec & _).
  cbn [snd]. rewrite (dispatched_app _ _ _ Ht), batches_of_inserts.
  eapply Forall_impl; [|exact Hrec]. intros b Hb.
  eapply Forall_impl; [|exact Hb].
  intros j (p & v & d & Hin & Hdec & Hstamp & _).
  destruct (stamp_inv _ _ _ _ Hstamp) as (d0 & d' & -> & -> & _ & _ & Hkeep).
  exists p, d0, d'. auto.
Qed.
